(** * smart_pointers.h: reference-counted SharedPtr / WeakPtr

    A shallow embedding of [src/smart_pointers.h].  Control blocks live in a
    store indexed by their address; every member function of the header is a
    state-passing function over that store.  Undefined behaviour of the C++
    program (touching a released block, running a destructor twice) is an
    explicit [Fault] outcome, a propagating C++ exception is [Throw].

    The class templates are taken at their default template arguments
    ([Deleter = std::default_delete], [Allocator = std::allocator]); the
    managed type [T] is opaque except for its optional
    [EnableSharedFromThis] base, whose only member is a [WeakPtr]. *)

From Stdlib Require Import ZArith Lia Bool List.
From stdpp Require Import base option list.
Import ListNotations.

Local Open Scope Z_scope.

(** ** [size_t] arithmetic (LP64: 64 bits, wrapping) *)

Definition SIZE_WIDTH : Z := 64.
Definition SIZE_MODULUS : Z := 2 ^ SIZE_WIDTH.
Definition SIZE_MAX : Z := SIZE_MODULUS - 1.

Definition size_wrap (z : Z) : Z := z mod SIZE_MODULUS.

(** [c += val], [++c] and [--c] on a [size_t] *)
Definition size_add (c val : Z) : Z := size_wrap (c + val).
Definition size_incr (c : Z) : Z := size_wrap (c + 1).
Definition size_decr (c : Z) : Z := size_wrap (c - 1).

Definition in_size_t (c : Z) : Prop := 0 <= c <= SIZE_MAX.

(** ** Pointers *)

(** A [T*] is null, the address of an object made by a new-expression, or
    the address of the [_object] member of the [shared_block] at a given
    block address. *)
Inductive address : Type :=
  | HeapObject (a : nat)
  | EmbeddedObject (b : nat).

Definition pointer : Type := option address.
Definition block_pointer : Type := option nat.

Definition address_eqb (x y : address) : bool :=
  match x, y with
  | HeapObject a, HeapObject a' => Nat.eqb a a'
  | EmbeddedObject b, EmbeddedObject b' => Nat.eqb b b'
  | _, _ => false
  end.

Definition is_nullptr {A} (p : option A) : bool :=
  match p with None => true | Some _ => false end.

(** ** Handles *)

(** Both classes have the members [_ptr] and [_control_block]; the
    projections carry the class as a prefix. *)
Record SharedPtr : Type := mkSharedPtr {
  sp_ptr : pointer;
  sp_control_block : block_pointer
}.

Record WeakPtr : Type := mkWeakPtr {
  wp_ptr : pointer;
  wp_control_block : block_pointer
}.

(** ** Managed objects and control blocks *)

(** [_weak_ptr] is [Some w] exactly when the object's type derives from
    [EnableSharedFromThis]. [obj_alive] is the object's lifetime. *)
Record object : Type := mkObject {
  obj_alive : bool;
  _weak_ptr : option WeakPtr
}.

Inductive block_variant : Type :=
  | regular_block (_pointer : pointer)
  | shared_block (_object : object).

Record base_block : Type := mkBlock {
  _shared_counter : Z;
  _weak_counter : Z;
  variant : block_variant
}.

(** Storage of one control block: obtained from the allocator but not yet
    constructed, holding a constructed block, or given back. *)
Inductive cell : Type :=
  | Raw
  | Constructed (blk : base_block)
  | Released.

Inductive event : Type :=
  | EvDestroy (b : nat)         (* control_block->destroy() entered *)
  | EvDestructor (a : address)  (* the managed object's destructor ran *)
  | EvDeallocate (b : nat).     (* control_block->deallocate() entered *)

Record state : Type := mkState {
  blocks : list cell;
  objects : list object;
  trace : list event
}.

Definition initial_state : state := mkState [] [] [].

Inductive fault : Type :=
  | UseAfterFree (b : nat)
  | InvalidBlock (b : nat)
  | DoubleFree (b : nat)
  | DoubleDestroy (a : address)
  | InvalidDelete (a : address)
  | InvalidObject (a : address)
  | NullDereference.

Inductive outcome (A : Type) : Type :=
  | Ok (a : A) (s : state)
  | Throw (s : state)
  | Fault (f : fault) (s : state).

Arguments Ok {A} a s.
Arguments Throw {A} s.
Arguments Fault {A} f s.

(** ** The state-and-error monad *)

Definition M (A : Type) : Type := state -> outcome A.

Definition ret {A} (a : A) : M A := fun s => Ok a s.

Definition bind {A B} (c : M A) (k : A -> M B) : M B :=
  fun s =>
    match c s with
    | Ok a s' => k a s'
    | Throw s' => Throw s'
    | Fault f s' => Fault f s'
    end.

Definition raise_fault {A} (f : fault) : M A := fun s => Fault f s.
Definition throw {A} : M A := fun s => Throw s.

Declare Scope smart_scope.
Delimit Scope smart_scope with smart.
Notation "'let*' x ':=' c 'in' k" := (bind c (fun x => k))
  (at level 10, x name, c at level 100, k at level 200) : smart_scope.
Notation "c ';;' k" := (bind c (fun _ => k))
  (at level 100, k at level 200, right associativity) : smart_scope.
Local Open Scope smart_scope.

Definition log (e : event) : M unit :=
  fun s => Ok tt (mkState (blocks s) (objects s) (trace s ++ [e])).

(** ** Block store primitives *)

(** Every [_control_block->...] access goes through [get_block]. *)
Definition get_block (b : nat) : M base_block :=
  fun s =>
    match blocks s !! b with
    | Some (Constructed blk) => Ok blk s
    | Some Released => Fault (UseAfterFree b) s
    | _ => Fault (InvalidBlock b) s
    end.

Definition put_block (b : nat) (blk : base_block) : M unit :=
  fun s =>
    Ok tt (mkState (<[b := Constructed blk]> (blocks s)) (objects s) (trace s)).

(** [std::allocator_traits<block_alloc>::allocate(alloc, 1)]: fresh raw
    storage.  Addresses are never handed out twice. *)
Definition allocate : M nat :=
  fun s =>
    Ok (length (blocks s))
       (mkState (blocks s ++ [Raw]) (objects s) (trace s)).

(** Placement construction of a block in raw storage. *)
Definition construct (b : nat) (blk : base_block) : M unit :=
  fun s =>
    match blocks s !! b with
    | Some Raw => put_block b blk s
    | _ => Fault (InvalidBlock b) s
    end.

(** [std::allocator_traits<block_alloc>::deallocate(alloc, this, 1)] *)
Definition release (b : nat) : M unit :=
  fun s =>
    match blocks s !! b with
    | Some Released => Fault (DoubleFree b) s
    | Some _ => Ok tt (mkState (<[b := Released]> (blocks s)) (objects s) (trace s))
    | None => Fault (InvalidBlock b) s
    end.

(** Number of block allocations not yet given back. *)
Definition outstanding (c : cell) : bool :=
  match c with Released => false | _ => true end.

Definition allocated (s : state) : nat :=
  length (List.filter outstanding (blocks s)).

Definition occurrences (P : event -> bool) (evs : list event) : nat :=
  length (List.filter P evs).

Definition count_event (P : event -> bool) (s : state) : nat :=
  occurrences P (trace s).

Definition is_destroy (b : nat) (e : event) : bool :=
  match e with EvDestroy b' => Nat.eqb b b' | _ => false end.

Definition is_deallocate (b : nat) (e : event) : bool :=
  match e with EvDeallocate b' => Nat.eqb b b' | _ => false end.

Definition is_destructor (a : address) (e : event) : bool :=
  match e with EvDestructor a' => address_eqb a a' | _ => false end.

(** ** Object store primitives *)

Definition get_object (a : address) : M object :=
  match a with
  | HeapObject i =>
      fun s =>
        match objects s !! i with
        | Some o => Ok o s
        | None => Fault (InvalidObject a) s
        end
  | EmbeddedObject b =>
      let* blk := get_block b in
      match variant blk with
      | shared_block o => ret o
      | regular_block _ => raise_fault (InvalidObject a)
      end
  end.

Definition put_object (a : address) (o : object) : M unit :=
  match a with
  | HeapObject i =>
      fun s => Ok tt (mkState (blocks s) (<[i := o]> (objects s)) (trace s))
  | EmbeddedObject b =>
      let* blk := get_block b in
      put_block b (mkBlock (_shared_counter blk) (_weak_counter blk)
                           (shared_block o))
  end.

(** A new-expression [new T(...)] of the client. *)
Definition new_object (o : object) : M pointer :=
  fun s =>
    Ok (Some (HeapObject (length (objects s))))
       (mkState (blocks s) (objects s ++ [o]) (trace s)).

(** ** [base_block::deallocate] (both overrides release one block unit) *)

Definition deallocate (b : nat) : M unit :=
  let* _ := get_block b in   (* virtual dispatch reads the block *)
  log (EvDeallocate b) ;;
  release b.

(** ** [WeakPtr] *)

Definition WeakPtr_default : WeakPtr := mkWeakPtr None None.

Definition incr_weak (blk : base_block) : base_block :=
  mkBlock (_shared_counter blk) (size_incr (_weak_counter blk)) (variant blk).

Definition decr_weak (blk : base_block) : base_block :=
  mkBlock (_shared_counter blk) (size_decr (_weak_counter blk)) (variant blk).

Definition add_shared (val : Z) (blk : base_block) : base_block :=
  mkBlock (size_add (_shared_counter blk) val) (_weak_counter blk) (variant blk).

Definition incr_shared (blk : base_block) : base_block :=
  mkBlock (size_incr (_shared_counter blk)) (_weak_counter blk) (variant blk).

Definition decr_shared (blk : base_block) : base_block :=
  mkBlock (size_decr (_shared_counter blk)) (_weak_counter blk) (variant blk).

Definition update_block (b : nat) (f : base_block -> base_block) : M unit :=
  let* blk := get_block b in
  put_block b (f blk).

(** [WeakPtr(const WeakPtr&)], [WeakPtr(const WeakPtr<U>&)] *)
Definition WeakPtr_copy (another : WeakPtr) : M WeakPtr :=
  match wp_control_block another with
  | Some b =>
      update_block b incr_weak ;;
      ret (mkWeakPtr (wp_ptr another) (Some b))
  | None => ret (mkWeakPtr (wp_ptr another) None)
  end.

(** [WeakPtr(const SharedPtr<U>&)] *)
Definition WeakPtr_from_shared (another : SharedPtr) : M WeakPtr :=
  match sp_control_block another with
  | Some b =>
      update_block b incr_weak ;;
      ret (mkWeakPtr (sp_ptr another) (Some b))
  | None => ret (mkWeakPtr (sp_ptr another) None)
  end.

(** [WeakPtr(WeakPtr&&)]: the new handle and what is left in [another]. *)
Definition WeakPtr_move (another : WeakPtr) : WeakPtr * WeakPtr :=
  (mkWeakPtr (wp_ptr another) (wp_control_block another), WeakPtr_default).

(** [WeakPtr::use_count] *)
Definition WeakPtr_use_count (w : WeakPtr) : M Z :=
  match wp_control_block w with
  | None => ret 0
  | Some b => let* blk := get_block b in ret (_shared_counter blk)
  end.

(** [WeakPtr::expired] *)
Definition WeakPtr_expired (w : WeakPtr) : M bool :=
  let* n := WeakPtr_use_count w in
  ret (n =? 0).

(** [WeakPtr::~WeakPtr] *)
Definition WeakPtr_dtor (w : WeakPtr) : M unit :=
  match wp_control_block w with
  | None => ret tt
  | Some b =>
      update_block b decr_weak ;;
      let* blk := get_block b in
      if (_shared_counter blk =? 0) && (_weak_counter blk =? 0)
      then deallocate b
      else ret tt
  end.

(** ** Destruction of the managed object *)

(** [T::~T()] at address [a]: the object's lifetime ends, then its
    [EnableSharedFromThis] base (if any) destroys [_weak_ptr]. *)
Definition destructor (a : address) : M unit :=
  let* o := get_object a in
  if obj_alive o then
    log (EvDestructor a) ;;
    put_object a (mkObject false (_weak_ptr o)) ;;
    match _weak_ptr o with
    | Some w => WeakPtr_dtor w
    | None => ret tt
    end
  else raise_fault (DoubleDestroy a).

(** [std::default_delete<T>()(ptr)], i.e. [delete ptr]. *)
Definition default_delete (a : address) : M unit :=
  match a with
  | HeapObject _ => destructor a
  | EmbeddedObject _ => raise_fault (InvalidDelete a)
  end.

(** [regular_block::destroy] and [shared_block::destroy] *)
Definition destroy (b : nat) : M unit :=
  let* blk := get_block b in   (* virtual dispatch reads the block *)
  log (EvDestroy b) ;;
  match variant blk with
  | regular_block p =>
      match p with
      | Some a =>
          default_delete a ;;
          (* _pointer = nullptr *)
          let* blk' := get_block b in
          put_block b (mkBlock (_shared_counter blk') (_weak_counter blk')
                               (regular_block None))
      | None => ret tt
      end
  | shared_block _ => destructor (EmbeddedObject b)
  end.

(** ** [SharedPtr] *)

Definition SharedPtr_default : SharedPtr := mkSharedPtr None None.

(** The private constructor [SharedPtr(int val, T* ptr, base_block* control_block)] *)
Definition SharedPtr_private (val : Z) (ptr : pointer)
    (control_block : block_pointer) : M SharedPtr :=
  match control_block with
  | Some b =>
      update_block b (add_shared val) ;;
      ret (mkSharedPtr ptr (Some b))
  | None => ret (mkSharedPtr ptr None)
  end.

(** [SharedPtr(const SharedPtr&)] *)
Definition SharedPtr_copy (another : SharedPtr) : M SharedPtr :=
  match sp_control_block another with
  | Some b =>
      update_block b (add_shared 1) ;;
      ret (mkSharedPtr (sp_ptr another) (Some b))
  | None => ret (mkSharedPtr (sp_ptr another) None)
  end.

(** [dynamic_cast<T*>(p)]: [compatible a] tells whether the dynamic type of
    the object at [a] is [T] or derives from it. *)
Definition dynamic_cast (compatible : address -> bool) (p : pointer) : pointer :=
  match p with
  | Some a => if compatible a then Some a else None
  | None => None
  end.

(** [template <U> SharedPtr(const SharedPtr<U>&)] *)
Definition SharedPtr_copy_from (compatible : address -> bool)
    (another : SharedPtr) : M SharedPtr :=
  let ptr := dynamic_cast compatible (sp_ptr another) in
  match sp_control_block another with
  | Some b =>
      update_block b incr_shared ;;
      ret (mkSharedPtr ptr (Some b))
  | None => ret (mkSharedPtr ptr None)
  end.

(** [SharedPtr(SharedPtr&&)]: the new handle and what is left in [another]. *)
Definition SharedPtr_move (another : SharedPtr) : SharedPtr * SharedPtr :=
  (mkSharedPtr (sp_ptr another) (sp_control_block another), SharedPtr_default).

(** [template <U> SharedPtr(SharedPtr<U>&&)] *)
Definition SharedPtr_move_from (compatible : address -> bool)
    (another : SharedPtr) : SharedPtr * SharedPtr :=
  (mkSharedPtr (dynamic_cast compatible (sp_ptr another))
               (sp_control_block another),
   SharedPtr_default).

(** [SharedPtr::get] *)
Definition SharedPtr_get (p : SharedPtr) : pointer := sp_ptr p.

(** [SharedPtr::operator*] and [operator->] used to reach the object: the
    pointer must not be null and the object must be alive. *)
Definition SharedPtr_deref (p : SharedPtr) : M object :=
  match sp_ptr p with
  | None => raise_fault NullDereference
  | Some a =>
      let* o := get_object a in
      if obj_alive o then ret o else raise_fault (InvalidObject a)
  end.

(** [SharedPtr::use_count] *)
Definition SharedPtr_use_count (p : SharedPtr) : M Z :=
  match sp_control_block p with
  | None => ret 0
  | Some b => let* blk := get_block b in ret (_shared_counter blk)
  end.

(** [SharedPtr::~SharedPtr] *)
Definition SharedPtr_dtor (p : SharedPtr) : M unit :=
  match sp_control_block p with
  | None => ret tt
  | Some b =>
      update_block b decr_shared ;;
      let* blk := get_block b in
      (if (_shared_counter blk =? 0) && negb (is_nullptr (sp_ptr p))
       then destroy b   (* and _ptr = nullptr in the dying handle *)
       else ret tt) ;;
      let* blk := get_block b in
      if (_shared_counter blk =? 0) && (_weak_counter blk =? 0)
      then deallocate b
      else ret tt
  end.

(** [WeakPtr::lock] *)
Definition WeakPtr_lock (w : WeakPtr) : M SharedPtr :=
  SharedPtr_private 1 (wp_ptr w) (wp_control_block w).

(** ** References to handles

    [operator=] and [swap] mutate handles through references that may name
    the same handle.  A reference is a lens into the caller's environment
    [E]; two references alias when they are the same lens. *)

Record lens (E A : Type) : Type := mkLens {
  view : E -> A;
  update : A -> E -> E
}.

Arguments mkLens {E A} view update.
Arguments view {E A} l e.
Arguments update {E A} l a e.

Definition lens_id {A} : lens A A := mkLens (fun a => a) (fun a _ => a).
Definition lens_fst {A B} : lens (A * B) A :=
  mkLens fst (fun a e => (a, snd e)).
Definition lens_snd {A B} : lens (A * B) B :=
  mkLens snd (fun b e => (fst e, b)).
Definition lens_compose {E F A} (outer : lens E F) (inner : lens F A) : lens E A :=
  mkLens (fun e => view inner (view outer e))
         (fun a e => update outer (update inner a (view outer e)) e).

(** [SharedPtr::swap(SharedPtr&)]: [std::swap] of the two fields in turn. *)
Definition SharedPtr_swap {E} (this another : lens E SharedPtr) (env : E) : E :=
  let t := sp_ptr (view this env) in
  let env :=
    update this (mkSharedPtr (sp_ptr (view another env))
                             (sp_control_block (view this env))) env in
  let env :=
    update another (mkSharedPtr t (sp_control_block (view another env))) env in
  let c := sp_control_block (view this env) in
  let env :=
    update this (mkSharedPtr (sp_ptr (view this env))
                             (sp_control_block (view another env))) env in
  update another (mkSharedPtr (sp_ptr (view another env)) c) env.

(** The tail shared by the four assignment operators,
    [SharedPtr(...).swap( *this )]: the temporary [tmp] swaps with [*this]
    and is then destroyed. *)
Definition SharedPtr_swap_out {E} (this : lens E SharedPtr) (tmp : SharedPtr)
    (env : E) : M E :=
  let '(tmp, env) :=
    SharedPtr_swap lens_fst (lens_compose lens_snd this) (tmp, env) in
  SharedPtr_dtor tmp ;;
  ret env.

(** [operator=(const SharedPtr&)] *)
Definition SharedPtr_assign {E} (this another : lens E SharedPtr) (env : E) : M E :=
  let* tmp := SharedPtr_copy (view another env) in
  SharedPtr_swap_out this tmp env.

(** [template <U> operator=(const SharedPtr<U>&)]: the source has another
    type, so it is only read. *)
Definition SharedPtr_assign_from {E} (compatible : address -> bool)
    (this : lens E SharedPtr) (another : SharedPtr) (env : E) : M E :=
  let* tmp := SharedPtr_copy_from compatible another in
  SharedPtr_swap_out this tmp env.

(** [operator=(SharedPtr&&)] *)
Definition SharedPtr_move_assign {E} (this another : lens E SharedPtr)
    (env : E) : M E :=
  let '(tmp, moved) := SharedPtr_move (view another env) in
  let env := update another moved env in
  SharedPtr_swap_out this tmp env.

(** [template <U> operator=(SharedPtr<U>&&)]: returns the environment and
    what is left in the source. *)
Definition SharedPtr_move_assign_from {E} (compatible : address -> bool)
    (this : lens E SharedPtr) (another : SharedPtr) (env : E)
    : M (E * SharedPtr) :=
  let '(tmp, moved) := SharedPtr_move_from compatible another in
  let* env := SharedPtr_swap_out this tmp env in
  ret (env, moved).

(** [SharedPtr::reset()] *)
Definition SharedPtr_reset {E} (this : lens E SharedPtr) (env : E) : M E :=
  let copy := SharedPtr_default in
  let '(copy, env) :=
    SharedPtr_swap (lens_compose lens_snd this) lens_fst (copy, env) in
  SharedPtr_dtor copy ;;
  ret env.

(** [template <U> SharedPtr<T>::swap(SharedPtr<U>&)]: [to_T] and [to_U]
    are the two [dynamic_cast]s, to the type of [*this] and to the type
    of [another]. *)
Definition SharedPtr_swap_from {E} (to_T to_U : address -> bool)
    (this another : lens E SharedPtr) (env : E) : M E :=
  let* copy := SharedPtr_copy_from to_T (view another env) in
  let* env := SharedPtr_assign_from to_U another (view this env) env in
  let '(copy, env) :=
    SharedPtr_swap (lens_compose lens_snd this) lens_fst (copy, env) in
  SharedPtr_dtor copy ;;
  ret env.

(** [WeakPtr::swap(WeakPtr&)] *)
Definition WeakPtr_swap {E} (this another : lens E WeakPtr) (env : E) : E :=
  let t := wp_ptr (view this env) in
  let env :=
    update this (mkWeakPtr (wp_ptr (view another env))
                           (wp_control_block (view this env))) env in
  let env :=
    update another (mkWeakPtr t (wp_control_block (view another env))) env in
  let c := wp_control_block (view this env) in
  let env :=
    update this (mkWeakPtr (wp_ptr (view this env))
                           (wp_control_block (view another env))) env in
  update another (mkWeakPtr (wp_ptr (view another env)) c) env.

(** [WeakPtr::operator=(const WeakPtr&)] *)
Definition WeakPtr_assign {E} (this another : lens E WeakPtr) (env : E) : M E :=
  let* copy := WeakPtr_copy (view another env) in
  let '(copy, env) :=
    WeakPtr_swap (lens_compose lens_snd this) lens_fst (copy, env) in
  WeakPtr_dtor copy ;;
  ret env.

(** ** [EnableSharedFromThis] *)

(** The [_weak_ptr] member of the live object at [a]. *)
Definition weak_this (a : address) : M WeakPtr :=
  let* o := get_object a in
  if obj_alive o then
    match _weak_ptr o with
    | Some w => ret w
    | None => raise_fault (InvalidObject a)
    end
  else raise_fault (InvalidObject a).

Definition store_weak_this (a : address) (w : WeakPtr) : M unit :=
  let* o := get_object a in
  put_object a (mkObject (obj_alive o) (Some w)).

(** [EnableSharedFromThis::shared_from_this] *)
Definition shared_from_this (a : address) : M SharedPtr :=
  let* w := weak_this a in
  WeakPtr_lock w.

(** [WeakPtr::operator=(const WeakPtr&)] with [*this] the [_weak_ptr]
    member of the object at [a]. *)
Definition WeakPtr_assign_member (a : address) (another : WeakPtr) : M unit :=
  let* copy := WeakPtr_copy another in
  let* w := weak_this a in
  let '(copy, w) := WeakPtr_swap lens_snd lens_fst (copy, w) in
  store_weak_this a w ;;
  WeakPtr_dtor copy.

(** [EnableSharedFromThis::set_pointer]: [_weak_ptr = ptr] converts [ptr]
    to a temporary [WeakPtr], assigns it and destroys the temporary. *)
Definition set_pointer (a : address) (ptr : SharedPtr) : M unit :=
  let* tmp := WeakPtr_from_shared ptr in
  WeakPtr_assign_member a tmp ;;
  WeakPtr_dtor tmp.

(** ** Factories *)

(** [SharedPtr(U* ptr, Deleter, Allocator)]; the flag is
    [std::is_base_of_v<EnableSharedFromThis<U>, U>]. *)
Definition SharedPtr_from_raw (enable_shared_from_this : bool)
    (ptr : pointer) : M SharedPtr :=
  let this := mkSharedPtr ptr None in
  if enable_shared_from_this then
    match ptr with
    | None => raise_fault NullDereference
    | Some a =>
        let* shared_ptr := shared_from_this a in
        let* n := SharedPtr_use_count shared_ptr in
        if negb (n =? 0) then
          let* env := SharedPtr_assign lens_fst lens_snd (this, shared_ptr) in
          let '(this, shared_ptr) := env in
          SharedPtr_dtor shared_ptr ;;
          ret this
        else
          let* b := allocate in
          construct b (mkBlock 1 0 (regular_block ptr)) ;;
          let this := mkSharedPtr ptr (Some b) in
          set_pointer a this ;;
          SharedPtr_dtor shared_ptr ;;
          ret this
    end
  else
    let* b := allocate in
    construct b (mkBlock 1 0 (regular_block ptr)) ;;
    ret (mkSharedPtr ptr (Some b)).

(** The object a successful constructor of [T] leaves behind. *)
Definition constructed_object (enable_shared_from_this : bool) : object :=
  mkObject true (if enable_shared_from_this then Some WeakPtr_default else None).

(** [allocateShared]; [ctor_raises] tells whether [T]'s constructor throws
    for the given arguments. *)
Definition allocateShared (enable_shared_from_this ctor_raises : bool)
    : M SharedPtr :=
  let* control_block := allocate in
  (if ctor_raises then throw
   else construct control_block
          (mkBlock 1 0 (shared_block (constructed_object enable_shared_from_this)))) ;;
  let ptr := Some (EmbeddedObject control_block) in
  SharedPtr_private 0 ptr (Some control_block).

(** [makeShared] *)
Definition makeShared (enable_shared_from_this ctor_raises : bool)
    : M SharedPtr :=
  allocateShared enable_shared_from_this ctor_raises.

(** [template <U, Deleter, Allocator> SharedPtr::reset(U* ptr, Deleter,
    Allocator)]: the new ownership is built first, then swapped in, then
    the old one is destroyed. *)
Definition SharedPtr_reset_ptr {E} (enable_shared_from_this : bool)
    (this : lens E SharedPtr) (ptr : pointer) (env : E) : M E :=
  let* copy := SharedPtr_from_raw enable_shared_from_this ptr in
  let '(copy, env) :=
    SharedPtr_swap (lens_compose lens_snd this) lens_fst (copy, env) in
  SharedPtr_dtor copy ;;
  ret env.

(** ** Vocabulary of the statements *)

(** The state with the block at [b] replaced. *)
Definition with_block (b : nat) (blk : base_block) (s : state) : state :=
  mkState (<[b := Constructed blk]> (blocks s)) (objects s) (trace s).

(** The storage at [b] holds the constructed block [blk]. *)
Definition live (s : state) (b : nat) (blk : base_block) : Prop :=
  blocks s !! b = Some (Constructed blk).

(** A SharedPtr is counted by the block it refers to. *)
Definition holds_reference (s : state) (p : SharedPtr) : Prop :=
  forall b, sp_control_block p = Some b ->
    exists blk, live s b blk /\ 1 <= _shared_counter blk <= SIZE_MAX.

(** The object's [_weak_ptr] member, if it has one, refers to no block. *)
Definition unregistered (wk : option WeakPtr) : Prop :=
  match wk with
  | None => True
  | Some w => wp_control_block w = None
  end.

(** The object at heap address [i] is alive, derives from
    [EnableSharedFromThis] with [_weak_ptr = w], and the block [w] refers
    to (if any) is constructed with a strong count that can still grow. *)
Definition self_observing (s : state) (i : nat) (w : WeakPtr) : Prop :=
  objects s !! i = Some (mkObject true (Some w)) /\
  forall b, wp_control_block w = Some b ->
    exists blk, live s b blk /\ 0 <= _shared_counter blk < SIZE_MAX.

(** [n] copy constructions from [p], one after the other. *)
Fixpoint SharedPtr_copies (n : nat) (p : SharedPtr) : M (list SharedPtr) :=
  match n with
  | O => ret []
  | S k =>
      let* q := SharedPtr_copy p in
      let* qs := SharedPtr_copies k p in
      ret (q :: qs)
  end.

Definition final_state {A} (o : outcome A) : state :=
  match o with
  | Ok _ s => s
  | Throw s => s
  | Fault _ s => s
  end.

(** ** The handles of one block *)

(** What a client can do with the handles it holds to one block. *)
Inductive handle_op : Type :=
  | CopyOwner       (* SharedPtr q(p); *)
  | DropOwner       (* a SharedPtr goes out of scope *)
  | Observe         (* WeakPtr w(p); *)
  | CopyObserver    (* WeakPtr v(w); *)
  | DropObserver    (* a WeakPtr goes out of scope *)
  | LockObserver.   (* auto q = w.lock(); *)

(** How many SharedPtr and WeakPtr handles to the block the client holds. *)
Record holders : Type := mkHolders {
  owners : nat;
  observers : nat
}.

Definition after_op (op : handle_op) (h : holders) : holders :=
  match op with
  | CopyOwner | LockObserver => mkHolders (S (owners h)) (observers h)
  | DropOwner => mkHolders (Nat.pred (owners h)) (observers h)
  | Observe | CopyObserver => mkHolders (owners h) (S (observers h))
  | DropObserver => mkHolders (owners h) (Nat.pred (observers h))
  end.

Definition after_ops (ops : list handle_op) (h : holders) : holders :=
  fold_left (fun h op => after_op op h) ops h.

(** The client has the handle the operation needs; [lock] is only called
    on an observer that is not expired. *)
Definition can_perform (op : handle_op) (h : holders) : bool :=
  match op with
  | CopyOwner | DropOwner | Observe => negb (Nat.eqb (owners h) 0)
  | CopyObserver | DropObserver => negb (Nat.eqb (observers h) 0)
  | LockObserver =>
      negb (Nat.eqb (observers h) 0) && negb (Nat.eqb (owners h) 0)
  end.

Fixpoint admissible (ops : list handle_op) (h : holders) : bool :=
  match ops with
  | [] => true
  | op :: rest => can_perform op h && admissible rest (after_op op h)
  end.

(** All handles to the block at [b] carry the same pointer [a]. *)
Definition perform (a : address) (b : nat) (op : handle_op) : M unit :=
  let p := mkSharedPtr (Some a) (Some b) in
  let w := mkWeakPtr (Some a) (Some b) in
  match op with
  | CopyOwner => SharedPtr_copy p ;; ret tt
  | DropOwner => SharedPtr_dtor p
  | Observe => WeakPtr_from_shared p ;; ret tt
  | CopyObserver => WeakPtr_copy w ;; ret tt
  | DropObserver => WeakPtr_dtor w
  | LockObserver => WeakPtr_lock w ;; ret tt
  end.

Fixpoint perform_all (a : address) (b : nat) (ops : list handle_op) : M unit :=
  match ops with
  | [] => ret tt
  | op :: rest => perform a b op ;; perform_all a b rest
  end.

(** How the object of a block is held: inside the block, or at a heap
    address the block points to. [wk] is the object's [_weak_ptr]. *)
Inductive managed : Type :=
  | Colocated (wk : option WeakPtr)
  | Owned (i : nat) (wk : option WeakPtr).

Definition managed_weak (m : managed) : option WeakPtr :=
  match m with Colocated wk => wk | Owned _ wk => wk end.

Definition managed_address (m : managed) (b : nat) : address :=
  match m with Colocated _ => EmbeddedObject b | Owned i _ => HeapObject i end.

(** The block variant while the object is alive, and after [destroy]. *)
Definition managed_variant (m : managed) (alive : bool) : block_variant :=
  match m with
  | Colocated wk => shared_block (mkObject alive wk)
  | Owned i wk => regular_block (if alive then Some (HeapObject i) else None)
  end.

Definition managed_object (m : managed) (alive : bool) (s : state) : Prop :=
  match m with
  | Colocated _ => True
  | Owned i wk => objects s !! i = Some (mkObject alive wk)
  end.

(** The state of a block, its object and the events since its creation,
    as a function of the handles that are left. *)
Definition lifecycle_cell (m : managed) (h : holders) : cell :=
  match owners h, observers h with
  | O, O => Released
  | o, w =>
      Constructed (mkBlock (Z.of_nat o) (Z.of_nat w)
                           (managed_variant m (negb (Nat.eqb o 0))))
  end.

Definition lifecycle_objects (m : managed) (h : holders) (objs : list object)
    : list object :=
  match owners h, m with
  | O, Owned i wk => <[i := mkObject false wk]> objs
  | _, _ => objs
  end.

Definition lifecycle_events (m : managed) (b : nat) (h : holders) : list event :=
  match owners h, observers h with
  | S _, _ => []
  | O, S _ => [EvDestroy b; EvDestructor (managed_address m b)]
  | O, O => [EvDestroy b; EvDestructor (managed_address m b); EvDeallocate b]
  end.

Definition lifecycle_state (m : managed) (b : nat) (s0 : state) (h : holders)
    : state :=
  mkState (<[b := lifecycle_cell m h]> (blocks s0))
          (lifecycle_objects m h (objects s0))
          (trace s0 ++ lifecycle_events m b h).

(** ** Client programs used below *)

(** [auto sp = makeShared<T>(); WeakPtr<T> wp(sp);] then [sp] goes out of
    scope. Returns the surviving observer. *)
Definition expired_observer : M WeakPtr :=
  let* sp := makeShared false false in
  let* wp := WeakPtr_from_shared sp in
  SharedPtr_dtor sp ;;
  ret wp.

(** ... followed by [auto sp2 = wp.lock();] on the expired observer. *)
Definition lock_expired_observer : M (bool * SharedPtr * Z) :=
  let* wp := expired_observer in
  let* e := WeakPtr_expired wp in
  let* sp2 := WeakPtr_lock wp in
  let* n := SharedPtr_use_count sp2 in
  ret (e, sp2, n).

(** ... and then [sp2] goes out of scope as well. *)
Definition drop_locked_expired : M unit :=
  let* r := lock_expired_observer in
  SharedPtr_dtor (snd (fst r)).

(** [struct A : EnableSharedFromThis<A> {}; { SharedPtr<A> p(new A); }] *)
Definition drop_self_observing : M unit :=
  let* a := new_object (constructed_object true) in
  let* p := SharedPtr_from_raw true a in
  SharedPtr_dtor p.

(** [SharedPtr<Base> p(new Base); SharedPtr<Derived> q(p);] with a failing
    [dynamic_cast], then [p] and [q] go out of scope in that order. *)
Definition drop_hollow_last : M unit :=
  let* a := new_object (constructed_object false) in
  let* p := SharedPtr_from_raw false a in
  let* q := SharedPtr_copy_from (fun _ => false) p in
  SharedPtr_dtor p ;;
  SharedPtr_dtor q.

(** A sole owner from [makeShared] watched by one WeakPtr: the counts seen
    before and after the owner is destroyed. *)
Definition sole_owner_observed (enable_shared_from_this : bool) : M (Z * Z * bool) :=
  let* p := makeShared enable_shared_from_this false in
  let* w := WeakPtr_from_shared p in
  let* n := SharedPtr_use_count p in
  SharedPtr_dtor p ;;
  let* m := WeakPtr_use_count w in
  let* e := WeakPtr_expired w in
  ret (n, m, e).

(** A state with one regular block owned by one SharedPtr. *)
Definition one_owner_state : state :=
  final_state ((let* a := new_object (constructed_object false) in
                SharedPtr_from_raw false a) initial_state).

Definition one_owner : SharedPtr := mkSharedPtr (Some (HeapObject 0)) (Some 0%nat).

(** A state with one self-observing object that no handle owns yet. *)
Definition unregistered_state : state :=
  final_state (new_object (constructed_object true) initial_state).

(** A state with two blocks, each with two owners and one observer: a
    regular block for a heap object and a colocated block. *)
Definition two_block_state : state :=
  final_state ((let* a := new_object (constructed_object false) in
                let* p := SharedPtr_from_raw false a in
                SharedPtr_copy p ;;
                WeakPtr_from_shared p ;;
                let* q := makeShared false false in
                SharedPtr_copy q ;;
                WeakPtr_from_shared q) initial_state).

Definition first_block : base_block :=
  mkBlock 2 1 (regular_block (Some (HeapObject 0))).

Definition second_block : base_block :=
  mkBlock 2 1 (shared_block (mkObject true None)).

(** A state with one heap object of a type without the self-observing
    base, not owned yet. *)
Definition plain_object_state : state :=
  final_state (new_object (constructed_object false) initial_state).

(** A state with one registered self-observing object, its owner and one
    outside observer. *)
Definition observed_self_observing_state : state :=
  final_state ((let* a := new_object (constructed_object true) in
                let* p := SharedPtr_from_raw true a in
                WeakPtr_from_shared p) initial_state).

(** * Properties *)

(** ** [size_t] facts *)

Lemma SIZE_MAX_value : SIZE_MAX = 18446744073709551615.
Proof. reflexivity. Qed.

Lemma size_wrap_range z : in_size_t (size_wrap z).
Proof.
  unfold in_size_t, size_wrap, SIZE_MAX.
  assert (0 < SIZE_MODULUS) by reflexivity.
  pose proof (Z.mod_pos_bound z SIZE_MODULUS H). lia.
Qed.

Lemma size_wrap_small z : in_size_t z -> size_wrap z = z.
Proof.
  unfold in_size_t, size_wrap, SIZE_MAX. intros H.
  apply Z.mod_small. lia.
Qed.

Lemma size_add_1 c : size_add c 1 = size_incr c.
Proof. reflexivity. Qed.

Lemma size_add_0 c : in_size_t c -> size_add c 0 = c.
Proof.
  intros H. unfold size_add. rewrite Z.add_0_r. now apply size_wrap_small.
Qed.

Lemma size_incr_small c : 0 <= c < SIZE_MAX -> size_incr c = c + 1.
Proof.
  intros H. unfold size_incr. apply size_wrap_small. unfold in_size_t. lia.
Qed.

Lemma size_decr_small c : 1 <= c <= SIZE_MAX -> size_decr c = c - 1.
Proof.
  intros H. unfold size_decr. apply size_wrap_small. unfold in_size_t. lia.
Qed.

(** [++c] followed by [--c] gives [c] back even when [++c] wraps to 0. *)
Lemma size_decr_incr c : in_size_t c -> size_decr (size_incr c) = c.
Proof.
  intros H. destruct (Z.eq_dec c SIZE_MAX) as [->|Hne].
  - reflexivity.
  - rewrite size_incr_small by (unfold in_size_t in H; lia).
    unfold size_decr. replace (c + 1 - 1) with c by lia.
    now apply size_wrap_small.
Qed.

(** [++c] wraps to 0 only from [SIZE_MAX]. *)
Lemma size_incr_nonzero c : 0 <= c < SIZE_MAX -> size_incr c <> 0.
Proof. intros H. rewrite size_incr_small by assumption. lia. Qed.

Lemma size_decr_nonzero c : 2 <= c <= SIZE_MAX -> size_decr c <> 0.
Proof. intros H. rewrite size_decr_small by lia. lia. Qed.

(** ** Stepping through the block store *)

Lemma get_block_live s b blk : live s b blk -> get_block b s = Ok blk s.
Proof. unfold live, get_block. now intros ->. Qed.

Lemma update_block_live s b blk f :
  live s b blk -> update_block b f s = Ok tt (with_block b (f blk) s).
Proof.
  intros H. unfold update_block, bind. now rewrite (get_block_live _ _ _ H).
Qed.

Lemma live_with_block s b blk blk' :
  live s b blk -> live (with_block b blk' s) b blk'.
Proof.
  unfold live, with_block. simpl. intros H.
  apply list_lookup_insert_eq. eapply lookup_lt_Some, H.
Qed.

Lemma live_with_block_ne s b b' blk blk' :
  b <> b' -> live s b' blk' -> live (with_block b blk s) b' blk'.
Proof.
  unfold live, with_block. simpl. intros Hne H.
  now rewrite list_lookup_insert_ne.
Qed.

Lemma with_block_with_block s b blk blk' :
  with_block b blk (with_block b blk' s) = with_block b blk s.
Proof.
  unfold with_block. simpl. now rewrite list_insert_insert_eq.
Qed.

Lemma with_block_same s b blk : live s b blk -> with_block b blk s = s.
Proof.
  unfold live, with_block. intros H. rewrite list_insert_id by exact H.
  now destruct s.
Qed.

Lemma with_block_length s b blk :
  length (blocks (with_block b blk s)) = length (blocks s).
Proof. unfold with_block. simpl. apply length_insert. Qed.

(** ** Handles without a control block *)

(** C10: every operation on a handle whose control block is null succeeds
    and leaves the whole state (all counters, the event trace) as it was:
    copy construction, assignment (to itself and between two empty
    handles) and destruction of an empty SharedPtr or WeakPtr; use_count
    is 0, expired is true, and lock on an empty WeakPtr gives a SharedPtr
    without a control block. *)
Theorem empty_handle_operations_are_noops (s : state) (ptr ptr' : pointer) :
  let p := mkSharedPtr ptr None in
  let q := mkSharedPtr ptr' None in
  let w := mkWeakPtr ptr None in
  let v := mkWeakPtr ptr' None in
  SharedPtr_copy p s = Ok p s /\
  SharedPtr_dtor p s = Ok tt s /\
  SharedPtr_assign lens_id lens_id p s = Ok p s /\
  SharedPtr_assign lens_fst lens_snd (p, q) s = Ok (q, q) s /\
  SharedPtr_move_assign lens_id lens_id p s = Ok p s /\
  SharedPtr_move_assign lens_fst lens_snd (p, q) s = Ok (q, SharedPtr_default) s /\
  SharedPtr_reset lens_id p s = Ok SharedPtr_default s /\
  SharedPtr_use_count p s = Ok 0 s /\
  WeakPtr_copy w s = Ok w s /\
  WeakPtr_from_shared p s = Ok w s /\
  WeakPtr_dtor w s = Ok tt s /\
  WeakPtr_assign lens_id lens_id w s = Ok w s /\
  WeakPtr_assign lens_fst lens_snd (w, v) s = Ok (v, v) s /\
  WeakPtr_use_count w s = Ok 0 s /\
  WeakPtr_expired w s = Ok true s /\
  WeakPtr_lock w s = Ok p s /\
  (let* l := WeakPtr_lock w in SharedPtr_use_count l) s = Ok 0 s.
Proof.
  cbv zeta. repeat split; reflexivity.
Qed.

Lemma zero_test_false c d : c <> 0 -> (c =? 0) && d = false.
Proof. intros H. apply Z.eqb_neq in H. now rewrite H. Qed.

Lemma SharedPtr_copy_live (s : state) (ptr : pointer) (b : nat) (blk : base_block) :
  live s b blk ->
  SharedPtr_copy (mkSharedPtr ptr (Some b)) s
  = Ok (mkSharedPtr ptr (Some b)) (with_block b (add_shared 1 blk) s).
Proof.
  intros Hl. unfold SharedPtr_copy. simpl. unfold bind.
  now rewrite (update_block_live _ _ _ _ Hl).
Qed.

Lemma SharedPtr_use_count_live (s : state) (ptr : pointer) (b : nat) (blk : base_block) :
  live s b blk ->
  SharedPtr_use_count (mkSharedPtr ptr (Some b)) s = Ok (_shared_counter blk) s.
Proof.
  intros Hl. unfold SharedPtr_use_count. simpl. unfold bind.
  now rewrite (get_block_live _ _ _ Hl).
Qed.

(** Destroying a handle that is not the last owner only decrements. *)
Lemma SharedPtr_dtor_not_last (s : state) (ptr : pointer) (b : nat) (blk : base_block) :
  live s b blk -> size_decr (_shared_counter blk) <> 0 ->
  SharedPtr_dtor (mkSharedPtr ptr (Some b)) s
  = Ok tt (with_block b (decr_shared blk) s).
Proof.
  intros Hl Hc. unfold SharedPtr_dtor. simpl. unfold bind.
  rewrite (update_block_live _ _ _ _ Hl).
  pose proof (live_with_block s b blk (decr_shared blk) Hl) as Hl1.
  rewrite (get_block_live _ _ _ Hl1). simpl.
  rewrite zero_test_false by assumption. unfold ret.
  rewrite (get_block_live _ _ _ Hl1). simpl.
  now rewrite zero_test_false by assumption.
Qed.

Lemma decr_add_shared (blk : base_block) :
  in_size_t (_shared_counter blk) -> decr_shared (add_shared 1 blk) = blk.
Proof.
  intros H. destruct blk as [c w v]. unfold decr_shared, add_shared. simpl in *.
  now rewrite size_add_1, size_decr_incr.
Qed.

(** C9: assigning a SharedPtr to itself, by copy or by move, leaves the
    handle (pointer and control block) and the whole state unchanged: the
    counters keep their values, so use_count is the same, and nothing is
    appended to the trace, so neither destroy nor deallocate ran. *)
Theorem self_assignment_changes_nothing (s : state) (p : SharedPtr) :
  holds_reference s p ->
  SharedPtr_assign lens_id lens_id p s = Ok p s /\
  SharedPtr_move_assign lens_id lens_id p s = Ok p s /\
  (let* _ := SharedPtr_assign lens_id lens_id p in SharedPtr_use_count p) s
    = SharedPtr_use_count p s /\
  (let* _ := SharedPtr_move_assign lens_id lens_id p in SharedPtr_use_count p) s
    = SharedPtr_use_count p s.
Proof.
  intros Hp.
  assert (Hmove : SharedPtr_move_assign lens_id lens_id p s = Ok p s).
  { destruct p as [ptr cb]. reflexivity. }
  assert (Hcopy : SharedPtr_assign lens_id lens_id p s = Ok p s).
  { destruct p as [ptr [b|]]; [|reflexivity].
    destruct (Hp b eq_refl) as (blk & Hl & Hc).
    unfold SharedPtr_assign, bind. simpl.
    rewrite (SharedPtr_copy_live _ _ _ _ Hl).
    unfold SharedPtr_swap_out, bind. simpl.
    pose proof (live_with_block s b blk (add_shared 1 blk) Hl) as Hl1.
    rewrite (SharedPtr_dtor_not_last _ _ _ _ Hl1).
    - rewrite with_block_with_block, decr_add_shared
        by (unfold in_size_t; lia).
      now rewrite (with_block_same _ _ _ Hl).
    - simpl. rewrite size_add_1, size_decr_incr by (unfold in_size_t; lia).
      lia. }
  split; [exact Hcopy | split; [exact Hmove | split]].
  - unfold bind. now rewrite Hcopy.
  - unfold bind. now rewrite Hmove.
Qed.

(** ** Conversions between handle types *)

Lemma SharedPtr_copy_from_live (compatible : address -> bool) (s : state)
    (ptr : pointer) (b : nat) (blk : base_block) :
  live s b blk ->
  SharedPtr_copy_from compatible (mkSharedPtr ptr (Some b)) s
  = Ok (mkSharedPtr (dynamic_cast compatible ptr) (Some b))
       (with_block b (incr_shared blk) s).
Proof.
  intros Hl. unfold SharedPtr_copy_from. simpl. unfold bind.
  now rewrite (update_block_live _ _ _ _ Hl).
Qed.

(** C5: converting a SharedPtr whose object has an incompatible dynamic
    type (the dynamic_cast fails) gives a handle with a null pointer that
    still refers to the source's control block.  The converting copy
    increments the strong count, the converting move leaves the count as it
    was and empties the source; the converting assignments do the same to
    their target after releasing what the target held before. *)
Theorem incompatible_conversion_keeps_block (compatible : address -> bool)
    (s : state) (a : address) (b : nat) (blk : base_block)
    (target : SharedPtr) (tptr : pointer) :
  live s b blk ->
  0 <= _shared_counter blk < SIZE_MAX ->
  compatible a = false ->
  let another := mkSharedPtr (Some a) (Some b) in
  let hollow := mkSharedPtr None (Some b) in
  let s' := with_block b (incr_shared blk) s in
  SharedPtr_copy_from compatible another s = Ok hollow s' /\
  SharedPtr_use_count hollow s' = Ok (_shared_counter blk + 1) s' /\
  SharedPtr_use_count another s' = Ok (_shared_counter blk + 1) s' /\
  SharedPtr_move_from compatible another = (hollow, SharedPtr_default) /\
  SharedPtr_use_count hollow s = Ok (_shared_counter blk) s /\
  SharedPtr_assign_from compatible lens_id another target s
    = (let* _ := SharedPtr_dtor target in ret hollow) s' /\
  SharedPtr_assign_from compatible lens_id another (mkSharedPtr tptr None) s
    = Ok hollow s' /\
  SharedPtr_move_assign_from compatible lens_id another target s
    = (let* _ := SharedPtr_dtor target in ret (hollow, SharedPtr_default)) s /\
  SharedPtr_move_assign_from compatible lens_id another (mkSharedPtr tptr None) s
    = Ok (hollow, SharedPtr_default) s.
Proof.
  intros Hl Hc Hdyn another hollow s'.
  assert (Hcopy : SharedPtr_copy_from compatible another s = Ok hollow s').
  { unfold another. rewrite (SharedPtr_copy_from_live _ _ _ _ _ Hl).
    simpl. now rewrite Hdyn. }
  assert (Hl' : live s' b (incr_shared blk))
    by exact (live_with_block s b blk _ Hl).
  assert (Hn : _shared_counter (incr_shared blk) = _shared_counter blk + 1).
  { simpl. now apply size_incr_small. }
  assert (Hmove : SharedPtr_move_from compatible another
                  = (hollow, SharedPtr_default)).
  { unfold SharedPtr_move_from, another. simpl. now rewrite Hdyn. }
  assert (Hassign : SharedPtr_assign_from compatible lens_id another target s
                    = (let* _ := SharedPtr_dtor target in ret hollow) s').
  { unfold SharedPtr_assign_from, bind. rewrite Hcopy.
    destruct target as [p c]. reflexivity. }
  assert (Hmassign :
    SharedPtr_move_assign_from compatible lens_id another target s
    = (let* _ := SharedPtr_dtor target in ret (hollow, SharedPtr_default)) s).
  { unfold SharedPtr_move_assign_from. rewrite Hmove.
    destruct target as [p c]. unfold SharedPtr_swap_out, bind. simpl.
    now destruct (SharedPtr_dtor _ s). }
  repeat match goal with |- _ /\ _ => split end.
  - exact Hcopy.
  - unfold hollow. now rewrite (SharedPtr_use_count_live _ _ _ _ Hl'), Hn.
  - unfold another. now rewrite (SharedPtr_use_count_live _ _ _ _ Hl'), Hn.
  - exact Hmove.
  - unfold hollow. now rewrite (SharedPtr_use_count_live _ _ _ _ Hl).
  - exact Hassign.
  - unfold SharedPtr_assign_from, bind. now rewrite Hcopy.
  - exact Hmassign.
  - unfold SharedPtr_move_assign_from. now rewrite Hmove.
Qed.

(** ** The last owner of a colocated block *)

Lemma unregistered_dtor (wk : option WeakPtr) :
  unregistered wk ->
  match wk with Some w => WeakPtr_dtor w | None => ret tt end = ret tt.
Proof.
  destruct wk as [[p [c|]]|]; simpl; intros H; try discriminate; reflexivity.
Qed.

Ltac lookup_inserted Hb :=
  repeat (rewrite ?list_lookup_insert_eq by (rewrite ?length_insert; exact Hb);
          simpl).

Lemma SharedPtr_dtor_last_embedded (s : state) (a : address) (b : nat) (w : Z)
    (wk : option WeakPtr) :
  live s b (mkBlock 1 w (shared_block (mkObject true wk))) ->
  unregistered wk ->
  SharedPtr_dtor (mkSharedPtr (Some a) (Some b)) s
  = if w =? 0
    then Ok tt (mkState (<[b := Released]> (blocks s)) (objects s)
                  (trace s ++ [EvDestroy b; EvDestructor (EmbeddedObject b);
                               EvDeallocate b]))
    else Ok tt (mkState
                  (<[b := Constructed
                            (mkBlock 0 w (shared_block (mkObject false wk)))]>
                     (blocks s))
                  (objects s)
                  (trace s ++ [EvDestroy b; EvDestructor (EmbeddedObject b)])).
Proof.
  intros Hl Hwk.
  assert (Hb : (b < length (blocks s))%nat) by (eapply lookup_lt_Some, Hl).
  unfold live in Hl.
  unfold SharedPtr_dtor, update_block, destroy, destructor, get_object,
    put_object, deallocate, release, bind, get_block, put_block, log. simpl.
  rewrite Hl. simpl. lookup_inserted Hb.
  rewrite (unregistered_dtor wk Hwk). unfold ret. lookup_inserted Hb.
  change (size_decr 1) with 0. simpl.
  destruct (w =? 0); simpl; lookup_inserted Hb;
    rewrite ?list_insert_insert_eq, <- ?app_assoc; reflexivity.
Qed.

Lemma allocated_app (l1 l2 : list cell) :
  length (List.filter outstanding (l1 ++ l2))
  = (length (List.filter outstanding l1)
     + length (List.filter outstanding l2))%nat.
Proof. now rewrite List.filter_app, length_app. Qed.

Lemma insert_at_length {A} (l : list A) (x y : A) :
  <[length l := y]> (l ++ [x]) = l ++ [y].
Proof.
  induction l as [|z l IH]; simpl; [reflexivity | now rewrite IH].
Qed.

Lemma lookup_at_length {A} (l : list A) (x : A) : (l ++ [x]) !! length l = Some x.
Proof.
  induction l as [|z l IH]; simpl; [reflexivity | exact IH].
Qed.

Lemma makeShared_ok (esft : bool) (s : state) :
  makeShared esft false s
  = Ok (mkSharedPtr (Some (EmbeddedObject (length (blocks s))))
                    (Some (length (blocks s))))
       (mkState (blocks s ++ [Constructed
                   (mkBlock 1 0 (shared_block (constructed_object esft)))])
                (objects s) (trace s)).
Proof.
  unfold makeShared, allocateShared, SharedPtr_private, update_block, construct,
    allocate, bind, get_block, put_block, ret. simpl.
  rewrite lookup_at_length. simpl. rewrite insert_at_length, lookup_at_length. simpl.
  now rewrite insert_at_length.
Qed.

(** C8: makeShared (allocateShared) with a constructor that succeeds
    returns one SharedPtr whose use_count is 1 and whose pointer is the
    object embedded in the new colocated block; one more allocation is
    outstanding.  Destroying that handle runs destroy, the object's
    destructor and deallocate once each, in that order, and the number of
    outstanding allocations is back to what it was before the call. *)
Theorem makeShared_round_trip (esft : bool) (s : state) :
  let b := length (blocks s) in
  let p := mkSharedPtr (Some (EmbeddedObject b)) (Some b) in
  exists s1 s2,
    makeShared esft false s = Ok p s1 /\
    live s1 b (mkBlock 1 0 (shared_block (constructed_object esft))) /\
    SharedPtr_use_count p s1 = Ok 1 s1 /\
    allocated s1 = S (allocated s) /\
    SharedPtr_dtor p s1 = Ok tt s2 /\
    trace s2 = trace s ++ [EvDestroy b; EvDestructor (EmbeddedObject b);
                           EvDeallocate b] /\
    blocks s2 = blocks s ++ [Released] /\
    objects s2 = objects s /\
    allocated s2 = allocated s.
Proof.
  intros b p. eexists _, _.
  split; [apply makeShared_ok|].
  set (s1 := mkState _ _ _).
  assert (Hl : live s1 b (mkBlock 1 0 (shared_block (constructed_object esft)))).
  { unfold live, s1, b. simpl. apply lookup_at_length. }
  split; [exact Hl|].
  split; [unfold p; now rewrite (SharedPtr_use_count_live _ _ _ _ Hl)|].
  split.
  { unfold allocated, s1. simpl. rewrite allocated_app. simpl. lia. }
  split.
  { unfold p. rewrite (SharedPtr_dtor_last_embedded _ _ _ _ _ Hl).
    - simpl. reflexivity.
    - destruct esft; reflexivity. }
  simpl. split; [reflexivity|].
  split; [unfold b; apply insert_at_length|].
  split; [reflexivity|].
  unfold allocated. simpl. unfold b. rewrite insert_at_length, allocated_app.
  simpl. lia.
Qed.

(** ** Counting copies *)

Lemma SharedPtr_copies_live (n : nat) : forall (s : state) (ptr : pointer) (b : nat)
    (blk : base_block),
  live s b blk ->
  0 <= _shared_counter blk ->
  _shared_counter blk + Z.of_nat n <= SIZE_MAX ->
  SharedPtr_copies n (mkSharedPtr ptr (Some b)) s
  = Ok (replicate n (mkSharedPtr ptr (Some b)))
       (with_block b (mkBlock (_shared_counter blk + Z.of_nat n)
                              (_weak_counter blk) (variant blk)) s).
Proof.
  induction n as [|n IH]; intros s ptr b blk Hl H0 Hmax.
  - simpl. unfold ret. rewrite Z.add_0_r.
    destruct blk as [c w v]. simpl. now rewrite (with_block_same _ _ _ Hl).
  - simpl. unfold bind. rewrite (SharedPtr_copy_live _ _ _ _ Hl).
    pose proof (live_with_block s b blk (add_shared 1 blk) Hl) as Hl1.
    assert (Hc : _shared_counter (add_shared 1 blk) = _shared_counter blk + 1).
    { simpl. rewrite size_add_1. apply size_incr_small. lia. }
    rewrite (IH _ ptr b _ Hl1) by (rewrite Hc; lia).
    unfold ret. rewrite with_block_with_block, Hc. simpl.
    do 3 f_equal. lia.
Qed.

Lemma WeakPtr_from_shared_live (s : state) (ptr : pointer) (b : nat) (blk : base_block) :
  live s b blk ->
  WeakPtr_from_shared (mkSharedPtr ptr (Some b)) s
  = Ok (mkWeakPtr ptr (Some b)) (with_block b (incr_weak blk) s).
Proof.
  intros Hl. unfold WeakPtr_from_shared. simpl. unfold bind.
  now rewrite (update_block_live _ _ _ _ Hl).
Qed.

Lemma WeakPtr_use_count_live (s : state) (ptr : pointer) (b : nat) (blk : base_block) :
  live s b blk ->
  WeakPtr_use_count (mkWeakPtr ptr (Some b)) s = Ok (_shared_counter blk) s.
Proof.
  intros Hl. unfold WeakPtr_use_count. simpl. unfold bind.
  now rewrite (get_block_live _ _ _ Hl).
Qed.

Lemma sole_owner_observed_ok (esft : bool) (s : state) :
  exists s', sole_owner_observed esft s = Ok (1, 0, true) s'.
Proof.
  unfold sole_owner_observed, bind.
  rewrite makeShared_ok.
  set (b := length (blocks s)). set (s1 := mkState _ _ _).
  assert (Hl : live s1 b (mkBlock 1 0 (shared_block (constructed_object esft))))
    by apply lookup_at_length.
  rewrite (WeakPtr_from_shared_live _ _ _ _ Hl).
  pose proof (live_with_block _ _ _ (incr_weak
    (mkBlock 1 0 (shared_block (constructed_object esft)))) Hl) as Hl1.
  rewrite (SharedPtr_use_count_live _ _ _ _ Hl1).
  change (incr_weak _) with
    (mkBlock 1 1 (shared_block (mkObject true
       (if esft then Some WeakPtr_default else None)))) in Hl1 |- *.
  rewrite (SharedPtr_dtor_last_embedded _ _ _ _ _ Hl1)
    by (destruct esft; reflexivity).
  simpl.
  match goal with |- context [WeakPtr_use_count _ ?s2] =>
    assert (Hl2 : live s2 b (mkBlock 0 1 (shared_block (mkObject false
                     (if esft then Some WeakPtr_default else None)))))
  end.
  { apply list_lookup_insert_eq. rewrite length_insert.
    eapply lookup_lt_Some, Hl. }
  rewrite (WeakPtr_use_count_live _ _ _ _ Hl2).
  unfold WeakPtr_expired, bind.
  rewrite (WeakPtr_use_count_live _ _ _ _ Hl2).
  eexists. reflexivity.
Qed.

(** C7: starting from the first SharedPtr of a block (strong count 1),
    after N - 1 copy constructions there are N handles, all equal, and
    use_count on each of them returns N; when one of N >= 2 handles is
    destroyed, use_count on the others returns N - 1.  For N = 1 the only
    handle is destroyed and the count N - 1 = 0 is what a WeakPtr to the
    block reports.  use_count on a handle without a control block is 0.
    N ranges over the values of the size_t counter. *)
Theorem use_count_counts_handles (N : nat) (s : state) (ptr : pointer)
    (b : nat) (blk : base_block) :
  (1 <= N)%nat ->
  Z.of_nat N <= SIZE_MAX ->
  live s b blk ->
  _shared_counter blk = 1 ->
  let p := mkSharedPtr ptr (Some b) in
  let sN := with_block b (mkBlock (Z.of_nat N) (_weak_counter blk) (variant blk)) s in
  let sD := with_block b (mkBlock (Z.of_nat N - 1) (_weak_counter blk) (variant blk)) s in
  SharedPtr_copies (N - 1) p s = Ok (replicate (N - 1) p) sN /\
  (forall q, In q (p :: replicate (N - 1) p) ->
     SharedPtr_use_count q sN = Ok (Z.of_nat N) sN) /\
  ((2 <= N)%nat ->
     SharedPtr_dtor p sN = Ok tt sD /\
     forall q, In q (replicate (N - 1) p) ->
       SharedPtr_use_count q sD = Ok (Z.of_nat N - 1) sD) /\
  (forall esft s0, exists s', sole_owner_observed esft s0 = Ok (1, 0, true) s') /\
  (forall ptr' s0, SharedPtr_use_count (mkSharedPtr ptr' None) s0 = Ok 0 s0).
Proof.
  intros HN Hmax Hl Hc p sN sD.
  assert (HlN : live sN b (mkBlock (Z.of_nat N) (_weak_counter blk) (variant blk)))
    by exact (live_with_block s b blk _ Hl).
  assert (HlD : live sD b (mkBlock (Z.of_nat N - 1) (_weak_counter blk) (variant blk)))
    by exact (live_with_block s b blk _ Hl).
  assert (Hall : forall q, In q (p :: replicate (N - 1) p) -> q = p).
  { intros q [Hq|Hq]; [now symmetry|].
    apply list_elem_of_In, elem_of_replicate in Hq. tauto. }
  split.
  { unfold p. rewrite (SharedPtr_copies_live _ _ _ _ _ Hl) by lia.
    unfold sN. do 3 f_equal. lia. }
  split.
  { intros q Hq. rewrite (Hall q Hq). unfold p.
    now rewrite (SharedPtr_use_count_live _ _ _ _ HlN). }
  split.
  { intros H2. split.
    - unfold p. rewrite (SharedPtr_dtor_not_last _ _ _ _ HlN).
      + unfold sN, sD, decr_shared. simpl.
        now rewrite with_block_with_block, size_decr_small by lia.
      + simpl. apply size_decr_nonzero. lia.
    - intros q Hq. rewrite (Hall q (or_intror Hq)). unfold p.
      now rewrite (SharedPtr_use_count_live _ _ _ _ HlD). }
  split.
  - apply sole_owner_observed_ok.
  - reflexivity.
Qed.

(** ** Construction from a raw pointer to a self-observing object *)

Lemma weak_this_heap (s : state) (i : nat) (w : WeakPtr) :
  objects s !! i = Some (mkObject true (Some w)) ->
  weak_this (HeapObject i) s = Ok w s.
Proof.
  intros H. unfold weak_this, bind, get_object. now rewrite H.
Qed.

Lemma from_raw_aliases (s : state) (i : nat) (wptr : pointer) (b : nat)
    (blk : base_block) :
  objects s !! i = Some (mkObject true (Some (mkWeakPtr wptr (Some b)))) ->
  live s b blk ->
  0 <= _shared_counter blk < SIZE_MAX ->
  let sp := mkSharedPtr wptr (Some b) in
  let s1 := with_block b (add_shared 1 blk) s in
  shared_from_this (HeapObject i) s = Ok sp s1 /\
  SharedPtr_use_count sp s1 = Ok (_shared_counter blk + 1) s1 /\
  SharedPtr_from_raw true (Some (HeapObject i)) s = Ok sp s1.
Proof.
  intros Ho Hl Hc sp s1.
  assert (Hl1 : live s1 b (add_shared 1 blk))
    by exact (live_with_block s b blk _ Hl).
  assert (Hn : _shared_counter (add_shared 1 blk) = _shared_counter blk + 1).
  { simpl. rewrite size_add_1. now apply size_incr_small. }
  assert (Hsft : shared_from_this (HeapObject i) s = Ok sp s1).
  { unfold shared_from_this, bind. rewrite (weak_this_heap _ _ _ Ho).
    unfold WeakPtr_lock, SharedPtr_private, bind. simpl.
    now rewrite (update_block_live _ _ _ _ Hl). }
  assert (Huc : SharedPtr_use_count sp s1 = Ok (_shared_counter blk + 1) s1).
  { unfold sp. now rewrite (SharedPtr_use_count_live _ _ _ _ Hl1), Hn. }
  split; [exact Hsft|]. split; [exact Huc|].
  unfold SharedPtr_from_raw, bind. rewrite Hsft, Huc.
  replace (_shared_counter blk + 1 =? 0) with false
    by (symmetry; apply Z.eqb_neq; lia).
  simpl. unfold SharedPtr_assign, bind. simpl.
  unfold sp. rewrite (SharedPtr_copy_live _ _ _ _ Hl1).
  unfold SharedPtr_swap_out, bind. simpl. unfold ret.
  pose proof (live_with_block s1 b _ (add_shared 1 (add_shared 1 blk)) Hl1) as Hl2.
  rewrite (SharedPtr_dtor_not_last _ _ _ _ Hl2).
  - rewrite with_block_with_block, decr_add_shared
      by (rewrite Hn; unfold in_size_t; lia).
    now rewrite (with_block_same _ _ _ Hl1).
  - change (_shared_counter (add_shared 1 (add_shared 1 blk)))
      with (size_add (_shared_counter (add_shared 1 blk)) 1).
    rewrite size_add_1, size_decr_incr, Hn by (rewrite Hn; unfold in_size_t; lia).
    lia.
Qed.

Lemma from_raw_registers (s : state) (i : nat) (wptr : pointer) :
  objects s !! i = Some (mkObject true (Some (mkWeakPtr wptr None))) ->
  let a := HeapObject i in
  let b := length (blocks s) in
  let this := mkSharedPtr (Some a) (Some b) in
  let s_mid := mkState (blocks s ++ [Constructed (mkBlock 1 0 (regular_block (Some a)))])
                       (objects s) (trace s) in
  let s' := mkState (blocks s ++ [Constructed (mkBlock 1 1 (regular_block (Some a)))])
                    (<[i := mkObject true (Some (mkWeakPtr (Some a) (Some b)))]> (objects s))
                    (trace s) in
  shared_from_this a s = Ok (mkSharedPtr wptr None) s /\
  set_pointer a this s_mid = Ok tt s' /\
  SharedPtr_from_raw true (Some a) s = Ok this s'.
Proof.
  intros Ho a b this s_mid s'.
  assert (Hi : (i < length (objects s))%nat) by (eapply lookup_lt_Some, Ho).
  assert (Hsft : shared_from_this a s = Ok (mkSharedPtr wptr None) s).
  { unfold shared_from_this, bind, a. now rewrite (weak_this_heap _ _ _ Ho). }
  assert (Hset : set_pointer a this s_mid = Ok tt s').
  { unfold set_pointer, WeakPtr_assign_member, WeakPtr_from_shared, WeakPtr_copy,
      WeakPtr_dtor, store_weak_this, weak_this, update_block, deallocate,
      bind, get_object, put_object, get_block, put_block, ret, a, this, s_mid, b.
    simpl. rewrite !lookup_at_length. simpl.
    rewrite !insert_at_length, !lookup_at_length. simpl.
    rewrite Ho. simpl. rewrite Ho. simpl.
    rewrite !insert_at_length, !lookup_at_length. simpl.
    rewrite !insert_at_length, !lookup_at_length. simpl.
    reflexivity. }
  split; [exact Hsft|]. split; [exact Hset|].
  unfold SharedPtr_from_raw, bind. fold a. rewrite Hsft. simpl.
  unfold allocate, construct, put_block, bind. simpl.
  rewrite lookup_at_length. rewrite insert_at_length.
  fold b. fold this. fold s_mid. rewrite Hset. reflexivity.
Qed.

(** C6: constructing a SharedPtr from a raw pointer to an object whose
    type derives from EnableSharedFromThis first asks the object for a
    handle to itself.  If that handle has a non-zero use_count, the new
    SharedPtr is that handle: it refers to the block the object already
    observes and no block is allocated.  Otherwise a regular block is
    allocated and constructed with strong count 1 and weak count 0, the
    new handle is registered with set_pointer (which makes the object's
    WeakPtr refer to the new block and raises its weak count to 1), and a
    later shared_from_this returns a handle to the same block and object. *)
Theorem from_raw_self_observing (s : state) (i : nat) (w : WeakPtr) :
  self_observing s i w ->
  let a := HeapObject i in
  exists sp s1 n,
    shared_from_this a s = Ok sp s1 /\
    SharedPtr_use_count sp s1 = Ok n s1 /\
    (n <> 0 ->
       SharedPtr_from_raw true (Some a) s = Ok sp s1 /\
       sp_control_block sp = wp_control_block w /\
       (exists b, sp_control_block sp = Some b /\ (b < length (blocks s))%nat) /\
       length (blocks s1) = length (blocks s)) /\
    (n = 0 ->
       let b := length (blocks s) in
       let this := mkSharedPtr (Some a) (Some b) in
       let s_mid :=
         mkState (blocks s ++ [Constructed (mkBlock 1 0 (regular_block (Some a)))])
                 (objects s) (trace s) in
       let s' :=
         mkState (blocks s ++ [Constructed (mkBlock 1 1 (regular_block (Some a)))])
                 (<[i := mkObject true (Some (mkWeakPtr (Some a) (Some b)))]>
                    (objects s))
                 (trace s) in
       set_pointer a this s_mid = Ok tt s' /\
       SharedPtr_from_raw true (Some a) s = Ok this s' /\
       shared_from_this a s'
       = Ok this (with_block b (mkBlock 2 1 (regular_block (Some a))) s')).
Proof.
  intros [Ho Hw] a. destruct w as [wptr [b|]].
  - destruct (Hw b eq_refl) as (blk & Hl & Hc).
    destruct (from_raw_aliases s i wptr b blk Ho Hl Hc) as (Hsft & Huc & Hraw).
    eexists _, _, _. split; [exact Hsft|]. split; [exact Huc|]. split.
    + intros _. split; [exact Hraw|]. split; [reflexivity|]. split.
      * exists b. split; [reflexivity|]. eapply lookup_lt_Some, Hl.
      * apply with_block_length.
    + intros Hn. lia.
  - destruct (from_raw_registers s i wptr Ho) as (Hsft & Hset & Hraw).
    exists (mkSharedPtr wptr None), s, 0.
    split; [exact Hsft|]. split; [reflexivity|]. split.
    + intros Hn. now contradiction Hn.
    + intros _ b this s_mid s'.
      split; [exact Hset|]. split; [exact Hraw|].
      assert (Ho' : objects s' !! i
                    = Some (mkObject true (Some (mkWeakPtr (Some a) (Some b))))).
      { apply list_lookup_insert_eq. eapply lookup_lt_Some, Ho. }
      assert (Hl' : live s' b (mkBlock 1 1 (regular_block (Some a))))
        by apply lookup_at_length.
      destruct (from_raw_aliases s' i (Some a) b _ Ho' Hl') as (H & _).
      * simpl. rewrite SIZE_MAX_value. lia.
      * exact H.
Qed.

(** ** [lock] on an expired observer *)

(** [lock] adds one to the strong count of any constructed block, also
    when that count is 0. *)
Lemma WeakPtr_lock_live (s : state) (ptr : pointer) (b : nat) (blk : base_block) :
  live s b blk ->
  WeakPtr_lock (mkWeakPtr ptr (Some b)) s
  = Ok (mkSharedPtr ptr (Some b)) (with_block b (add_shared 1 blk) s).
Proof.
  intros Hl. unfold WeakPtr_lock, SharedPtr_private. simpl. unfold bind.
  now rewrite (update_block_live _ _ _ _ Hl).
Qed.

Lemma WeakPtr_lock_expired (s : state) (ptr : pointer) (b : nat) (blk : base_block) :
  live s b blk ->
  _shared_counter blk = 0 ->
  let w := mkWeakPtr ptr (Some b) in
  WeakPtr_expired w s = Ok true s /\
  exists s',
    WeakPtr_lock w s = Ok (mkSharedPtr ptr (Some b)) s' /\
    SharedPtr_use_count (mkSharedPtr ptr (Some b)) s' = Ok 1 s'.
Proof.
  intros Hl Hc w. split.
  - unfold WeakPtr_expired, bind, w.
    now rewrite (WeakPtr_use_count_live _ _ _ _ Hl), Hc.
  - eexists. split; [apply (WeakPtr_lock_live _ _ _ _ Hl)|].
    rewrite (SharedPtr_use_count_live _ _ _ (add_shared 1 blk)).
    + simpl. now rewrite Hc.
    + exact (live_with_block s b blk _ Hl).
Qed.

(** C1 on the code: an observer of a colocated block outlives the only
    owner, so it is expired (strong count 0, object destroyed).  [lock]
    on it nevertheless returns a SharedPtr with the old, non-null pointer
    and use_count 1: the strong count went from 0 to 1. *)
Theorem lock_on_expired_observer_resurrects :
  lock_expired_observer initial_state
  = Ok (true, mkSharedPtr (Some (EmbeddedObject 0)) (Some 0%nat), 1)
       (mkState
          [Constructed (mkBlock 1 1 (shared_block (mkObject false None)))]
          []
          [EvDestroy 0; EvDestructor (EmbeddedObject 0)]).
Proof. reflexivity. Qed.

(** C2 on the code: when the handle obtained from the expired observer is
    destroyed in turn, the strong count drops from 1 to 0 a second time
    and destroy is entered again on a block whose object is already
    destroyed; the embedded object's destructor would run twice. *)
Theorem drop_after_lock_destroys_twice :
  exists s',
    drop_locked_expired initial_state
    = Fault (DoubleDestroy (EmbeddedObject 0)) s' /\
    trace s' = [EvDestroy 0; EvDestructor (EmbeddedObject 0); EvDestroy 0] /\
    count_event (is_destroy 0) s' = 2%nat.
Proof. eexists. repeat split. Qed.

(** The other way round: when the last owner is a handle whose pointer
    was nulled by a failed conversion, destroy is never called; the block
    is released while the object is still alive. *)
Lemma drop_hollow_last_never_destroys :
  drop_hollow_last initial_state
  = Ok tt (mkState [Released] [mkObject true None] [EvDeallocate 0]).
Proof. reflexivity. Qed.

(** C3 on the code: the only owner of a self-observing object is
    destroyed.  The strong count drops to 0, destroy deletes the object,
    the object's own WeakPtr is destroyed with it, sees both counts at 0
    and releases the block; destroy and the SharedPtr destructor then go
    on using the released block. *)
Theorem drop_self_observing_uses_released_block :
  drop_self_observing initial_state
  = Fault (UseAfterFree 0)
      (mkState
         [Released]
         [mkObject false (Some (mkWeakPtr (Some (HeapObject 0)) (Some 0%nat)))]
         [EvDestroy 0; EvDestructor (HeapObject 0); EvDeallocate 0]).
Proof. reflexivity. Qed.

(** ** The life of one block *)

Lemma SharedPtr_dtor_last (s : state) (m : managed) (b : nat) (w : Z) :
  live s b (mkBlock 1 w (managed_variant m true)) ->
  managed_object m true s ->
  unregistered (managed_weak m) ->
  let a := managed_address m b in
  SharedPtr_dtor (mkSharedPtr (Some a) (Some b)) s
  = Ok tt
      (mkState
         (<[b := if w =? 0 then Released
                 else Constructed (mkBlock 0 w (managed_variant m false))]>
            (blocks s))
         (lifecycle_objects m (mkHolders 0 0) (objects s))
         (trace s ++ [EvDestroy b; EvDestructor a]
                  ++ (if w =? 0 then [EvDeallocate b] else []))).
Proof.
  intros Hl Ho Hwk a.
  assert (Hb : (b < length (blocks s))%nat) by (eapply lookup_lt_Some, Hl).
  unfold live in Hl.
  destruct m as [wk|i wk]; simpl in *.
  - unfold SharedPtr_dtor, update_block, destroy, destructor, get_object,
      put_object, deallocate, release, bind, get_block, put_block, log. simpl.
    rewrite Hl. simpl. lookup_inserted Hb.
    rewrite (unregistered_dtor wk Hwk). unfold ret. lookup_inserted Hb.
    change (size_decr 1) with 0. simpl.
    destruct (w =? 0); simpl; lookup_inserted Hb;
      rewrite ?list_insert_insert_eq, <- ?app_assoc; reflexivity.
  - unfold SharedPtr_dtor, update_block, destroy, default_delete, destructor,
      get_object, put_object, deallocate, release, bind, get_block, put_block,
      log. simpl.
    rewrite Hl. simpl. lookup_inserted Hb. rewrite Ho. simpl.
    rewrite (unregistered_dtor wk Hwk). unfold ret. lookup_inserted Hb.
    change (size_decr 1) with 0. simpl.
    destruct (w =? 0); simpl; lookup_inserted Hb;
      rewrite ?list_insert_insert_eq, <- ?app_assoc; reflexivity.
Qed.

Lemma WeakPtr_copy_live (s : state) (ptr : pointer) (b : nat) (blk : base_block) :
  live s b blk ->
  WeakPtr_copy (mkWeakPtr ptr (Some b)) s
  = Ok (mkWeakPtr ptr (Some b)) (with_block b (incr_weak blk) s).
Proof.
  intros Hl. unfold WeakPtr_copy. simpl. unfold bind.
  now rewrite (update_block_live _ _ _ _ Hl).
Qed.

(** Destroying an observer: the weak count drops by one, and the block is
    released exactly when both counts are then 0. *)
Lemma WeakPtr_dtor_live (s : state) (ptr : pointer) (b : nat) (blk : base_block) :
  live s b blk ->
  WeakPtr_dtor (mkWeakPtr ptr (Some b)) s
  = if (_shared_counter blk =? 0) && (size_decr (_weak_counter blk) =? 0)
    then Ok tt (mkState (<[b := Released]> (blocks s)) (objects s)
                        (trace s ++ [EvDeallocate b]))
    else Ok tt (with_block b (decr_weak blk) s).
Proof.
  intros Hl.
  assert (Hb : (b < length (blocks s))%nat) by (eapply lookup_lt_Some, Hl).
  unfold live in Hl.
  unfold WeakPtr_dtor, update_block, deallocate, release, bind, get_block,
    put_block, log, ret. simpl.
  rewrite Hl. simpl. lookup_inserted Hb.
  destruct ((_shared_counter blk =? 0) && (size_decr (_weak_counter blk) =? 0));
    simpl; lookup_inserted Hb;
    unfold with_block; simpl;
    rewrite ?list_insert_insert_eq; reflexivity.
Qed.

Lemma lifecycle_state_initial (m : managed) (b : nat) (s0 : state) :
  live s0 b (mkBlock 1 0 (managed_variant m true)) ->
  lifecycle_state m b s0 (mkHolders 1 0) = s0.
Proof.
  intros Hl. unfold lifecycle_state. simpl.
  rewrite list_insert_id by exact Hl. rewrite app_nil_r. now destruct s0.
Qed.

Section OneBlock.

(** The block at [b] of the state [s0] has just been created for the
    object described by [m]. *)
Variables (m : managed) (b : nat) (s0 : state).
Hypothesis Hb : (b < length (blocks s0))%nat.
Hypothesis Hobj : managed_object m true s0.
Hypothesis Hwk : unregistered (managed_weak m).

Lemma lifecycle_state_live (o w : nat) :
  (o + w <> 0)%nat ->
  live (lifecycle_state m b s0 (mkHolders o w)) b
       (mkBlock (Z.of_nat o) (Z.of_nat w) (managed_variant m (negb (Nat.eqb o 0)))).
Proof.
  intros Hne. unfold live, lifecycle_state. simpl.
  rewrite list_lookup_insert_eq by exact Hb.
  unfold lifecycle_cell. simpl. destruct o, w; try reflexivity. lia.
Qed.

Lemma with_block_lifecycle (h h' : holders) (blk : base_block) :
  lifecycle_cell m h' = Constructed blk ->
  lifecycle_objects m h' (objects s0) = lifecycle_objects m h (objects s0) ->
  lifecycle_events m b h' = lifecycle_events m b h ->
  with_block b blk (lifecycle_state m b s0 h) = lifecycle_state m b s0 h'.
Proof.
  intros Hc Ho He. unfold with_block, lifecycle_state. simpl.
  now rewrite list_insert_insert_eq, Hc, Ho, He.
Qed.

(** One admissible operation takes the state for [h] to the state for
    [after_op op h]. *)
Lemma perform_lifecycle (op : handle_op) (h : holders) :
  can_perform op h = true ->
  Z.of_nat (owners h + observers h) < SIZE_MAX ->
  perform (managed_address m b) b op (lifecycle_state m b s0 h)
  = Ok tt (lifecycle_state m b s0 (after_op op h)).
Proof.
  intros Hcan Hmax. destruct h as [o w]. simpl in Hmax.
  destruct op; simpl in Hcan.
  - (* CopyOwner *)
    destruct o as [|o]; [discriminate|].
    pose proof (lifecycle_state_live (S o) w ltac:(lia)) as Hl.
    unfold perform, bind. rewrite (SharedPtr_copy_live _ _ _ _ Hl).
    unfold ret. f_equal. apply with_block_lifecycle; try reflexivity.
    unfold lifecycle_cell, add_shared. simpl owners. simpl observers.
    cbn [_shared_counter _weak_counter variant Nat.eqb negb].
    rewrite size_add_1, size_incr_small by lia.
    do 2 f_equal. lia.
  - (* DropOwner *)
    destruct o as [|[|o]]; [discriminate| |].
    + pose proof (lifecycle_state_live 1 w ltac:(lia)) as Hl.
      unfold perform.
      rewrite (SharedPtr_dtor_last _ m b (Z.of_nat w) Hl); [|exact Hobj|exact Hwk].
      f_equal. unfold lifecycle_state. simpl.
      rewrite list_insert_insert_eq, app_nil_r.
      destruct w as [|w]; reflexivity.
    + pose proof (lifecycle_state_live (S (S o)) w ltac:(lia)) as Hl.
      unfold perform. rewrite (SharedPtr_dtor_not_last _ _ _ _ Hl).
      * f_equal. apply with_block_lifecycle; try reflexivity.
        unfold lifecycle_cell, decr_shared. simpl owners. simpl observers.
        cbn [_shared_counter _weak_counter variant Nat.eqb negb Nat.pred].
        rewrite size_decr_small by lia. do 2 f_equal. lia.
      * cbn [_shared_counter]. apply size_decr_nonzero. lia.
  - (* Observe *)
    destruct o as [|o]; [discriminate|].
    pose proof (lifecycle_state_live (S o) w ltac:(lia)) as Hl.
    unfold perform, bind. rewrite (WeakPtr_from_shared_live _ _ _ _ Hl).
    unfold ret. f_equal. apply with_block_lifecycle; try reflexivity.
    unfold lifecycle_cell, incr_weak. simpl owners. simpl observers.
    cbn [_shared_counter _weak_counter variant Nat.eqb negb].
    rewrite size_incr_small by lia. do 2 f_equal. lia.
  - (* CopyObserver *)
    destruct w as [|w]; [discriminate|].
    pose proof (lifecycle_state_live o (S w) ltac:(lia)) as Hl.
    unfold perform, bind. rewrite (WeakPtr_copy_live _ _ _ _ Hl).
    unfold ret. f_equal. apply with_block_lifecycle.
    + unfold lifecycle_cell, incr_weak. simpl owners. simpl observers.
      cbn [_shared_counter _weak_counter variant].
      rewrite size_incr_small by lia.
      replace (Z.of_nat (S w) + 1) with (Z.of_nat (S (S w))) by lia.
      now destruct o.
    + reflexivity.
    + now destruct o.
  - (* DropObserver *)
    destruct w as [|w]; [discriminate|].
    pose proof (lifecycle_state_live o (S w) ltac:(lia)) as Hl.
    unfold perform. rewrite (WeakPtr_dtor_live _ _ _ _ Hl).
    cbn [_shared_counter _weak_counter].
    rewrite size_decr_small by lia.
    replace (Z.of_nat (S w) - 1) with (Z.of_nat w) by lia.
    destruct o as [|o], w as [|w]; simpl "&&"; cbv iota.
    + f_equal. unfold lifecycle_state. simpl.
      now rewrite list_insert_insert_eq, <- app_assoc.
    + f_equal. apply with_block_lifecycle; try reflexivity.
      unfold lifecycle_cell, decr_weak. simpl.
      rewrite size_decr_small by lia. do 2 f_equal. lia.
    + f_equal. apply with_block_lifecycle; try reflexivity.
    + f_equal. apply with_block_lifecycle; try reflexivity.
      unfold lifecycle_cell, decr_weak. simpl owners. simpl observers.
      cbn [_shared_counter _weak_counter variant Nat.eqb negb Nat.pred].
      rewrite size_decr_small by lia. do 2 f_equal. lia.
  - (* LockObserver *)
    apply andb_true_iff in Hcan as [Hw Ho].
    destruct o as [|o]; [discriminate|].
    pose proof (lifecycle_state_live (S o) w ltac:(lia)) as Hl.
    unfold perform, bind. rewrite (WeakPtr_lock_live _ _ _ _ Hl).
    unfold ret. f_equal. apply with_block_lifecycle; try reflexivity.
    unfold lifecycle_cell, add_shared. simpl owners. simpl observers.
    cbn [_shared_counter _weak_counter variant Nat.eqb negb].
    rewrite size_add_1, size_incr_small by lia.
    do 2 f_equal. lia.
Qed.

Lemma perform_all_lifecycle (ops : list handle_op) : forall h : holders,
  admissible ops h = true ->
  Z.of_nat (owners h + observers h + length ops) <= SIZE_MAX ->
  perform_all (managed_address m b) b ops (lifecycle_state m b s0 h)
  = Ok tt (lifecycle_state m b s0 (after_ops ops h)).
Proof.
  induction ops as [|op rest IH]; intros h Hadm Hmax.
  - reflexivity.
  - simpl in Hadm. apply andb_true_iff in Hadm as [Hcan Hrest].
    simpl length in Hmax. simpl. unfold bind.
    rewrite (perform_lifecycle op h Hcan) by lia.
    apply IH; try assumption.
    destruct h as [o w], op; simpl in *; lia.
Qed.

End OneBlock.

(** The life of a control block under any program that copies, converts to
    observers, locks unexpired observers and destroys handles of that
    block, from its creation with one owner: the program runs without
    fault; the counters are the numbers of handles held; destroy and the
    object's destructor have run exactly once if no owner is left and not
    at all otherwise; deallocate has run, once, exactly if neither an
    owner nor an observer is left.  The object's type may derive from
    EnableSharedFromThis as long as its WeakPtr is not registered. *)
Theorem block_lifecycle (m : managed) (b : nat) (s0 : state)
    (ops : list handle_op) :
  live s0 b (mkBlock 1 0 (managed_variant m true)) ->
  managed_object m true s0 ->
  unregistered (managed_weak m) ->
  admissible ops (mkHolders 1 0) = true ->
  Z.of_nat (S (length ops)) <= SIZE_MAX ->
  let h := after_ops ops (mkHolders 1 0) in
  let s := lifecycle_state m b s0 h in
  perform_all (managed_address m b) b ops s0 = Ok tt s /\
  trace s = trace s0 ++ lifecycle_events m b h /\
  occurrences (is_destroy b) (lifecycle_events m b h)
    = (if Nat.eqb (owners h) 0 then 1 else 0)%nat /\
  occurrences (is_destructor (managed_address m b)) (lifecycle_events m b h)
    = (if Nat.eqb (owners h) 0 then 1 else 0)%nat /\
  occurrences (is_deallocate b) (lifecycle_events m b h)
    = (if Nat.eqb (owners h) 0 && Nat.eqb (observers h) 0 then 1 else 0)%nat /\
  (blocks s !! b = Some Released <-> owners h = 0%nat /\ observers h = 0%nat).
Proof.
  intros Hl Hobj Hwk Hadm Hmax h s.
  assert (Hb : (b < length (blocks s0))%nat) by (eapply lookup_lt_Some, Hl).
  split.
  { rewrite <- (lifecycle_state_initial m b s0 Hl) at 1.
    apply perform_all_lifecycle; assumption. }
  split; [reflexivity|].
  assert (Hbb : Nat.eqb b b = true) by apply Nat.eqb_refl.
  assert (Haa : address_eqb (managed_address m b) (managed_address m b) = true)
    by (destruct m; apply Nat.eqb_refl).
  split; [|split; [|split]].
  - unfold occurrences, lifecycle_events.
    destruct (owners h), (observers h); simpl; rewrite ?Hbb; reflexivity.
  - unfold occurrences, lifecycle_events.
    destruct (owners h), (observers h); simpl; rewrite ?Haa; reflexivity.
  - unfold occurrences, lifecycle_events.
    destruct (owners h), (observers h); simpl; rewrite ?Hbb; reflexivity.
  - unfold s, lifecycle_state. simpl.
    rewrite list_lookup_insert_eq by exact Hb.
    unfold lifecycle_cell.
    destruct (owners h), (observers h); split; intros H;
      try discriminate; try (destruct H; discriminate); auto.
Qed.

(** The same for the block [makeShared] creates, from any state. *)
Corollary makeShared_block_lifecycle (esft : bool) (s : state)
    (ops : list handle_op) :
  admissible ops (mkHolders 1 0) = true ->
  Z.of_nat (S (length ops)) <= SIZE_MAX ->
  let b := length (blocks s) in
  let m := Colocated (_weak_ptr (constructed_object esft)) in
  exists s0,
    makeShared esft false s
    = Ok (mkSharedPtr (Some (EmbeddedObject b)) (Some b)) s0 /\
    perform_all (EmbeddedObject b) b ops s0
    = Ok tt (lifecycle_state m b s0 (after_ops ops (mkHolders 1 0))).
Proof.
  intros Hadm Hmax b m. eexists. split; [apply makeShared_ok|].
  refine (proj1 (block_lifecycle m b _ ops _ I _ Hadm Hmax)).
  - unfold live. simpl. apply lookup_at_length.
  - destruct esft; reflexivity.
Qed.

Lemma SharedPtr_from_raw_plain (ptr : pointer) (s : state) :
  SharedPtr_from_raw false ptr s
  = Ok (mkSharedPtr ptr (Some (length (blocks s))))
       (mkState (blocks s ++ [Constructed (mkBlock 1 0 (regular_block ptr))])
                (objects s) (trace s)).
Proof.
  unfold SharedPtr_from_raw, allocate, construct, put_block, bind, ret. simpl.
  now rewrite lookup_at_length, insert_at_length.
Qed.

(** And for the block the raw-pointer constructor creates for a live heap
    object that is not registered as self-observing. *)
Corollary from_raw_block_lifecycle (i : nat) (wk : option WeakPtr) (s : state)
    (ops : list handle_op) :
  objects s !! i = Some (mkObject true wk) ->
  unregistered wk ->
  admissible ops (mkHolders 1 0) = true ->
  Z.of_nat (S (length ops)) <= SIZE_MAX ->
  let b := length (blocks s) in
  exists s0,
    SharedPtr_from_raw false (Some (HeapObject i)) s
    = Ok (mkSharedPtr (Some (HeapObject i)) (Some b)) s0 /\
    perform_all (HeapObject i) b ops s0
    = Ok tt (lifecycle_state (Owned i wk) b s0 (after_ops ops (mkHolders 1 0))).
Proof.
  intros Ho Hwk Hadm Hmax b. eexists. split; [apply SharedPtr_from_raw_plain|].
  match goal with
  | |- perform_all _ _ _ ?s0 = _ =>
      refine (proj1 (block_lifecycle (Owned i wk) b s0 ops _ _ Hwk Hadm Hmax))
  end.
  - unfold live. simpl. apply lookup_at_length.
  - exact Ho.
Qed.

(** ** A constructor that raises in [allocateShared] *)

(** C4 as stated fails: after the constructor raised, one more block
    allocation is outstanding than before the call. *)
Lemma allocateShared_raise_leaves_storage :
  ~ (exists s',
       allocateShared false true initial_state = Throw s' /\
       allocated s' = allocated initial_state).
Proof.
  intros (s' & H & Ha). vm_compute in H. injection H as <-.
  vm_compute in Ha. discriminate.
Qed.

(** C4 as the code has it: when the managed object's constructor raises,
    allocateShared and makeShared propagate the exception and return no
    handle; every block, counter and object that existed before the call
    is unchanged and nothing is destroyed or deallocated, but the storage
    obtained for the new block stays allocated, unconstructed. *)
Theorem allocateShared_raise_propagates (esft : bool) (s : state) :
  let s' := mkState (blocks s ++ [Raw]) (objects s) (trace s) in
  allocateShared esft true s = Throw s' /\
  makeShared esft true s = Throw s' /\
  allocated s' = S (allocated s) /\
  (forall b c, blocks s !! b = Some c -> blocks s' !! b = Some c).
Proof.
  intros s'. repeat split.
  - unfold allocated, s'. simpl. rewrite allocated_app. simpl. lia.
  - intros b c H. unfold s'. simpl. now apply lookup_app_l_Some.
Qed.

(** ** Instances on a concrete state *)

Lemma one_owner_state_live :
  live one_owner_state 0 (mkBlock 1 0 (regular_block (Some (HeapObject 0)))).
Proof. reflexivity. Qed.

Lemma one_owner_holds_reference : holds_reference one_owner_state one_owner.
Proof.
  intros b Hb. injection Hb as <-. eexists. split; [reflexivity|].
  simpl. rewrite SIZE_MAX_value. lia.
Qed.

Lemma self_assignment_changes_nothing_witness :
  holds_reference one_owner_state one_owner /\
  SharedPtr_assign lens_id lens_id one_owner one_owner_state
  = Ok one_owner one_owner_state.
Proof.
  split; [exact one_owner_holds_reference|].
  exact (proj1 (self_assignment_changes_nothing one_owner_state one_owner
                  one_owner_holds_reference)).
Defined.

Lemma incompatible_conversion_keeps_block_witness :
  live one_owner_state 0 (mkBlock 1 0 (regular_block (Some (HeapObject 0)))) /\
  0 <= 1 < SIZE_MAX /\
  (fun _ : address => false) (HeapObject 0) = false /\
  SharedPtr_copy_from (fun _ => false) one_owner one_owner_state
  = Ok (mkSharedPtr None (Some 0%nat))
       (with_block 0 (mkBlock 2 0 (regular_block (Some (HeapObject 0))))
                   one_owner_state).
Proof.
  assert (Hc : 0 <= 1 < SIZE_MAX) by (rewrite SIZE_MAX_value; lia).
  split; [reflexivity|]. split; [exact Hc|]. split; [reflexivity|].
  exact (proj1 (incompatible_conversion_keeps_block (fun _ => false)
                  one_owner_state (HeapObject 0) 0
                  (mkBlock 1 0 (regular_block (Some (HeapObject 0))))
                  SharedPtr_default None
                  one_owner_state_live Hc eq_refl)).
Defined.

Lemma use_count_counts_handles_witness :
  (1 <= 3)%nat /\
  Z.of_nat 3 <= SIZE_MAX /\
  live one_owner_state 0 (mkBlock 1 0 (regular_block (Some (HeapObject 0)))) /\
  SharedPtr_copies 2 one_owner one_owner_state
  = Ok [one_owner; one_owner]
       (with_block 0 (mkBlock 3 0 (regular_block (Some (HeapObject 0))))
                   one_owner_state).
Proof.
  assert (H1 : (1 <= 3)%nat) by lia.
  assert (H2 : Z.of_nat 3 <= SIZE_MAX) by (rewrite SIZE_MAX_value; lia).
  split; [exact H1|]. split; [exact H2|]. split; [reflexivity|].
  exact (proj1 (use_count_counts_handles 3 one_owner_state
                  (Some (HeapObject 0)) 0
                  (mkBlock 1 0 (regular_block (Some (HeapObject 0))))
                  H1 H2 one_owner_state_live eq_refl)).
Defined.

Lemma unregistered_object_self_observing :
  self_observing unregistered_state 0 WeakPtr_default.
Proof.
  split; [reflexivity|]. intros b Hb. discriminate Hb.
Qed.

Lemma from_raw_self_observing_witness :
  self_observing unregistered_state 0 WeakPtr_default /\
  exists sp s1 n,
    shared_from_this (HeapObject 0) unregistered_state = Ok sp s1 /\
    SharedPtr_use_count sp s1 = Ok n s1.
Proof.
  split; [exact unregistered_object_self_observing|].
  destruct (from_raw_self_observing unregistered_state 0 WeakPtr_default
              unregistered_object_self_observing)
    as (sp & s1 & n & H1 & H2 & _).
  exists sp, s1, n. split; assumption.
Defined.

(** * Further properties of the header *)

(** ** More on the block store *)

Lemma with_block_commute (s : state) (b b' : nat) (blk blk' : base_block) :
  b <> b' ->
  with_block b blk (with_block b' blk' s) = with_block b' blk' (with_block b blk s).
Proof.
  intros Hne. unfold with_block. simpl.
  now rewrite list_insert_insert_ne by exact Hne.
Qed.

(** ** Assignment between two handles *)

Lemma SharedPtr_assign_pair (x y : SharedPtr) (s : state) :
  SharedPtr_assign lens_fst lens_snd (x, y) s
  = (let* t := SharedPtr_copy y in SharedPtr_dtor x ;; ret (t, y)) s.
Proof.
  unfold SharedPtr_assign, SharedPtr_swap_out, bind. simpl.
  destruct (SharedPtr_copy y s) as [[tp tc] s1| |]; reflexivity.
Qed.

(** X1: copy assignment [x = y] between two handles.  [x] ends up with
    [y]'s pointer and block and [y]'s strong count goes up by one.  What [x]
    held before is released as by its destructor: nothing when [x] was
    empty, nothing on balance when [x] already shared [y]'s block, and one
    count less on another block that keeps other owners.  The source is
    copied before the old value is released. *)
Theorem assign_retargets_handle (s : state) (py : pointer) (bz : nat)
    (blky : base_block) :
  live s bz blky -> 0 <= _shared_counter blky < SIZE_MAX ->
  let y := mkSharedPtr py (Some bz) in
  let sy := with_block bz (mkBlock (_shared_counter blky + 1)
                                   (_weak_counter blky) (variant blky)) s in
  (forall px,
     SharedPtr_assign lens_fst lens_snd (mkSharedPtr px None, y) s = Ok (y, y) sy) /\
  (forall px, 1 <= _shared_counter blky ->
     SharedPtr_assign lens_fst lens_snd (mkSharedPtr px (Some bz), y) s
     = Ok (y, y) s) /\
  (forall px bx blkx,
     bx <> bz -> live s bx blkx -> 2 <= _shared_counter blkx <= SIZE_MAX ->
     let x := mkSharedPtr px (Some bx) in
     let s' := with_block bx (mkBlock (_shared_counter blkx - 1)
                                      (_weak_counter blkx) (variant blkx)) sy in
     SharedPtr_assign lens_fst lens_snd (x, y) s = Ok (y, y) s' /\
     SharedPtr_use_count y s' = Ok (_shared_counter blky + 1) s' /\
     SharedPtr_use_count x s' = Ok (_shared_counter blkx - 1) s' /\
     trace s' = trace s /\ objects s' = objects s).
Proof.
  intros Hly Hcy y sy.
  set (blky' := mkBlock (_shared_counter blky + 1) (_weak_counter blky) (variant blky)).
  assert (Hy1 : add_shared 1 blky = blky').
  { unfold add_shared, blky'. now rewrite size_add_1, size_incr_small. }
  assert (Hcopy : SharedPtr_copy y s = Ok y sy).
  { unfold y. now rewrite (SharedPtr_copy_live _ _ _ _ Hly), Hy1. }
  assert (Hlsy : live sy bz blky') by exact (live_with_block _ _ _ _ Hly).
  split; [|split].
  - intros px. rewrite SharedPtr_assign_pair. unfold bind. now rewrite Hcopy.
  - intros px H1. rewrite SharedPtr_assign_pair. unfold bind. rewrite Hcopy.
    rewrite (SharedPtr_dtor_not_last _ _ _ _ Hlsy).
    + unfold sy. rewrite with_block_with_block.
      replace (decr_shared blky') with blky.
      * now rewrite (with_block_same _ _ _ Hly).
      * destruct blky as [c w v]. unfold decr_shared, blky'. simpl in *.
        rewrite size_decr_small by lia. f_equal. lia.
    + unfold blky'. simpl. rewrite size_decr_small by lia. lia.
  - intros px bx blkx Hne Hlx Hcx x s'.
    set (blkx' := mkBlock (_shared_counter blkx - 1) (_weak_counter blkx) (variant blkx)).
    assert (Hx1 : decr_shared blkx = blkx').
    { unfold decr_shared, blkx'. now rewrite size_decr_small by lia. }
    assert (Hlx1 : live sy bx blkx)
      by (apply live_with_block_ne; [congruence | exact Hlx]).
    assert (Hlx' : live s' bx blkx') by exact (live_with_block _ _ _ _ Hlx1).
    assert (Hly' : live s' bz blky')
      by (apply live_with_block_ne; [exact Hne | exact Hlsy]).
    split.
    { rewrite SharedPtr_assign_pair. unfold bind. rewrite Hcopy. unfold x.
      rewrite (SharedPtr_dtor_not_last _ _ _ _ Hlx1), Hx1; [reflexivity|].
      apply size_decr_nonzero. lia. }
    split; [unfold y; now rewrite (SharedPtr_use_count_live _ _ _ _ Hly')|].
    split; [unfold x; now rewrite (SharedPtr_use_count_live _ _ _ _ Hlx')|].
    split; reflexivity.
Qed.

Lemma SharedPtr_move_assign_pair (x y : SharedPtr) (s : state) :
  SharedPtr_move_assign lens_fst lens_snd (x, y) s
  = (SharedPtr_dtor x ;; ret (y, SharedPtr_default)) s.
Proof.
  destruct x as [xp xc], y as [yp yc]. reflexivity.
Qed.

(** X2: move construction and move assignment [x = std::move(y)] between
    two handles.  [x] takes over [y]'s pointer and block, [y] is left empty
    (use_count 0), no count of [y]'s block changes, and the block [x] held
    before loses one owner. *)
Theorem move_assign_transfers (s : state) (px : pointer) (bx : nat)
    (blkx : base_block) (y : SharedPtr) (w : WeakPtr) :
  live s bx blkx -> 2 <= _shared_counter blkx <= SIZE_MAX ->
  let x := mkSharedPtr px (Some bx) in
  let s' := with_block bx (mkBlock (_shared_counter blkx - 1) (_weak_counter blkx) (variant blkx)) s in
  SharedPtr_move y = (y, SharedPtr_default) /\
  WeakPtr_move w = (w, WeakPtr_default) /\
  SharedPtr_move_assign lens_fst lens_snd (x, y) s = Ok (y, SharedPtr_default) s' /\
  SharedPtr_move_assign lens_fst lens_snd (SharedPtr_default, y) s
    = Ok (y, SharedPtr_default) s /\
  SharedPtr_use_count SharedPtr_default s' = Ok 0 s' /\
  (forall bz, sp_control_block y = Some bz -> bz <> bx ->
     blocks s' !! bz = blocks s !! bz) /\
  trace s' = trace s.
Proof.
  intros Hlx Hcx x s'.
  split; [now destruct y|].
  split; [now destruct w|].
  split.
  { rewrite SharedPtr_move_assign_pair. unfold bind, x.
    rewrite (SharedPtr_dtor_not_last _ _ _ _ Hlx).
    - unfold decr_shared. now rewrite size_decr_small by lia.
    - apply size_decr_nonzero. lia. }
  split; [now rewrite SharedPtr_move_assign_pair|].
  split; [reflexivity|].
  split; [|reflexivity].
  intros bz _ Hne. unfold s', with_block. simpl.
  now rewrite list_lookup_insert_ne by congruence.
Qed.

Lemma SharedPtr_reset_is_dtor (p : SharedPtr) (s : state) :
  SharedPtr_reset lens_id p s = (SharedPtr_dtor p ;; ret SharedPtr_default) s.
Proof. destruct p as [pp pc]. reflexivity. Qed.

(** X3: [reset()] is the destructor followed by an empty handle.  A
    handle that is not the last owner takes one count off its block; the
    last owner runs destroy and the object's destructor, and deallocate
    when no observer is left. *)
Theorem reset_releases (s : state) (ptr : pointer) (b : nat) (blk : base_block) :
  live s b blk -> 1 <= _shared_counter blk <= SIZE_MAX ->
  let p := mkSharedPtr ptr (Some b) in
  SharedPtr_reset lens_id p s
    = (let* _ := SharedPtr_dtor p in ret SharedPtr_default) s /\
  (2 <= _shared_counter blk ->
     let s' := with_block b (mkBlock (_shared_counter blk - 1) (_weak_counter blk) (variant blk)) s in
     SharedPtr_reset lens_id p s = Ok SharedPtr_default s' /\
     SharedPtr_use_count p s' = Ok (_shared_counter blk - 1) s') /\
  (forall m w, blk = mkBlock 1 w (managed_variant m true) ->
     managed_object m true s -> unregistered (managed_weak m) ->
     ptr = Some (managed_address m b) ->
     exists s',
       SharedPtr_reset lens_id p s = Ok SharedPtr_default s' /\
       trace s' = trace s ++ [EvDestroy b; EvDestructor (managed_address m b)]
                          ++ (if w =? 0 then [EvDeallocate b] else [])).
Proof.
  intros Hl Hc p.
  split; [apply SharedPtr_reset_is_dtor|].
  split.
  - intros H2 s'.
    assert (Hd : SharedPtr_dtor p s = Ok tt s').
    { unfold p. rewrite (SharedPtr_dtor_not_last _ _ _ _ Hl).
      - unfold decr_shared. now rewrite size_decr_small by lia.
      - apply size_decr_nonzero. lia. }
    split.
    + rewrite SharedPtr_reset_is_dtor. unfold bind. now rewrite Hd.
    + unfold p. rewrite (SharedPtr_use_count_live _ _ _
        (mkBlock (_shared_counter blk - 1) (_weak_counter blk) (variant blk)));
        [reflexivity|]. exact (live_with_block _ _ _ _ Hl).
  - intros m w -> Hobj Hwk ->.
    rewrite SharedPtr_reset_is_dtor. unfold bind, p.
    rewrite (SharedPtr_dtor_last s m b w Hl Hobj Hwk).
    eexists. split; reflexivity.
Qed.

(** X4: [swap] exchanges pointer and block of two handles, also when
    both references name the same handle (then nothing changes), and
    swapping twice gives the handles back. *)
Theorem swap_exchanges (x y : SharedPtr) (w v : WeakPtr) :
  SharedPtr_swap lens_fst lens_snd (x, y) = (y, x) /\
  SharedPtr_swap lens_id lens_id x = x /\
  SharedPtr_swap lens_fst lens_snd (SharedPtr_swap lens_fst lens_snd (x, y)) = (x, y) /\
  WeakPtr_swap lens_fst lens_snd (w, v) = (v, w) /\
  WeakPtr_swap lens_id lens_id w = w.
Proof.
  destruct x, y, w, v. repeat split.
Qed.

(** ** Observers *)

(** X5: building a WeakPtr from a SharedPtr and copying a WeakPtr each
    add one to the weak count only.  use_count, read through the owner or
    through the observer, is the strong count as before; expired tells
    whether it is 0; objects and trace are untouched. *)
Theorem observing_leaves_use_count (s : state) (ptr : pointer) (b : nat)
    (blk : base_block) :
  live s b blk -> 0 <= _weak_counter blk < SIZE_MAX - 1 ->
  let p := mkSharedPtr ptr (Some b) in
  let w := mkWeakPtr ptr (Some b) in
  let s1 := with_block b (mkBlock (_shared_counter blk) (_weak_counter blk + 1)
                                  (variant blk)) s in
  let s2 := with_block b (mkBlock (_shared_counter blk) (_weak_counter blk + 2)
                                  (variant blk)) s in
  WeakPtr_from_shared p s = Ok w s1 /\
  WeakPtr_copy w s1 = Ok w s2 /\
  SharedPtr_use_count p s = Ok (_shared_counter blk) s /\
  SharedPtr_use_count p s2 = Ok (_shared_counter blk) s2 /\
  WeakPtr_use_count w s2 = Ok (_shared_counter blk) s2 /\
  WeakPtr_expired w s2 = Ok (_shared_counter blk =? 0) s2 /\
  trace s2 = trace s /\ objects s2 = objects s.
Proof.
  intros Hl Hw p w s1 s2.
  assert (Hl1 : live s1 b (mkBlock (_shared_counter blk) (_weak_counter blk + 1)
                                   (variant blk)))
    by exact (live_with_block _ _ _ _ Hl).
  assert (Hl2 : live s2 b (mkBlock (_shared_counter blk) (_weak_counter blk + 2)
                                   (variant blk)))
    by exact (live_with_block _ _ _ _ Hl).
  split.
  { unfold p. rewrite (WeakPtr_from_shared_live _ _ _ _ Hl).
    unfold incr_weak. now rewrite size_incr_small by lia. }
  split.
  { unfold w. rewrite (WeakPtr_copy_live _ _ _ _ Hl1).
    unfold incr_weak, s1, s2. simpl. rewrite with_block_with_block.
    rewrite size_incr_small by lia. do 3 f_equal. lia. }
  split; [unfold p; now rewrite (SharedPtr_use_count_live _ _ _ _ Hl)|].
  split; [unfold p; now rewrite (SharedPtr_use_count_live _ _ _ _ Hl2)|].
  split; [unfold w; now rewrite (WeakPtr_use_count_live _ _ _ _ Hl2)|].
  split.
  { unfold WeakPtr_expired, bind, w.
    now rewrite (WeakPtr_use_count_live _ _ _ _ Hl2). }
  split; reflexivity.
Qed.

(** X6: the WeakPtr destructor takes one off the weak count and calls
    deallocate exactly when the strong count is 0 and this was the last
    observer; it never calls destroy. *)
Theorem observer_destructor (s : state) (ptr : pointer) (b : nat)
    (blk : base_block) :
  live s b blk -> 1 <= _weak_counter blk <= SIZE_MAX ->
  let last := (_shared_counter blk =? 0) && (_weak_counter blk =? 1) in
  WeakPtr_dtor (mkWeakPtr ptr (Some b)) s
  = Ok tt
      (mkState
         (<[b := if last then Released
                 else Constructed (mkBlock (_shared_counter blk)
                                           (_weak_counter blk - 1) (variant blk))]>
            (blocks s))
         (objects s)
         (trace s ++ (if last then [EvDeallocate b] else []))).
Proof.
  intros Hl Hw last. rewrite (WeakPtr_dtor_live _ _ _ _ Hl).
  rewrite size_decr_small by lia.
  replace (_weak_counter blk - 1 =? 0) with (_weak_counter blk =? 1)
    by (destruct (Z.eqb_spec (_weak_counter blk) 1),
                 (Z.eqb_spec (_weak_counter blk - 1) 0); lia || reflexivity).
  fold last. destruct last.
  - reflexivity.
  - unfold with_block, decr_weak. rewrite size_decr_small by lia.
    now rewrite app_nil_r.
Qed.

(** X7: on an observer that is not expired, [lock] returns a SharedPtr
    with the observer's pointer and block and raises use_count by one;
    destroying that handle again gives back the state before the lock. *)
Theorem lock_then_drop_restores (s : state) (ptr : pointer) (b : nat)
    (blk : base_block) :
  live s b blk -> 1 <= _shared_counter blk < SIZE_MAX ->
  let w := mkWeakPtr ptr (Some b) in
  let q := mkSharedPtr ptr (Some b) in
  let s' := with_block b (mkBlock (_shared_counter blk + 1) (_weak_counter blk)
                                  (variant blk)) s in
  WeakPtr_expired w s = Ok false s /\
  WeakPtr_lock w s = Ok q s' /\
  SharedPtr_use_count q s' = Ok (_shared_counter blk + 1) s' /\
  SharedPtr_dtor q s' = Ok tt s /\
  (let* l := WeakPtr_lock w in SharedPtr_dtor l) s = Ok tt s.
Proof.
  intros Hl Hc w q s'.
  assert (Hadd : add_shared 1 blk
                 = mkBlock (_shared_counter blk + 1) (_weak_counter blk) (variant blk)).
  { unfold add_shared. now rewrite size_add_1, size_incr_small by lia. }
  assert (Hl' : live s' b (mkBlock (_shared_counter blk + 1) (_weak_counter blk)
                                   (variant blk)))
    by exact (live_with_block _ _ _ _ Hl).
  assert (Hlock : WeakPtr_lock w s = Ok q s').
  { unfold w. now rewrite (WeakPtr_lock_live _ _ _ _ Hl), Hadd. }
  assert (Hd : SharedPtr_dtor q s' = Ok tt s).
  { unfold q. rewrite (SharedPtr_dtor_not_last _ _ _ _ Hl').
    - unfold s', decr_shared. simpl. rewrite with_block_with_block.
      rewrite size_decr_small by lia.
      replace (_shared_counter blk + 1 - 1) with (_shared_counter blk) by lia.
      destruct blk as [c wk v]. simpl. now rewrite (with_block_same _ _ _ Hl).
    - simpl. rewrite size_decr_small by lia. lia. }
  split.
  { unfold WeakPtr_expired, bind, w.
    rewrite (WeakPtr_use_count_live _ _ _ _ Hl).
    replace (_shared_counter blk =? 0) with false; [reflexivity|].
    symmetry. apply Z.eqb_neq. lia. }
  split; [exact Hlock|].
  split; [unfold q; now rewrite (SharedPtr_use_count_live _ _ _ _ Hl')|].
  split; [exact Hd|].
  unfold bind. now rewrite Hlock.
Qed.

(** ** The last owner in the unusual cases *)

(** The last owner has a null pointer: [destroy] is skipped. *)
Lemma SharedPtr_dtor_last_null (s : state) (b : nat) (w : Z) (v : block_variant) :
  live s b (mkBlock 1 w v) ->
  SharedPtr_dtor (mkSharedPtr None (Some b)) s
  = Ok tt
      (mkState
         (<[b := if w =? 0 then Released else Constructed (mkBlock 0 w v)]>
            (blocks s))
         (objects s)
         (trace s ++ (if w =? 0 then [EvDeallocate b] else []))).
Proof.
  intros Hl.
  assert (Hb : (b < length (blocks s))%nat) by (eapply lookup_lt_Some, Hl).
  unfold live in Hl.
  unfold SharedPtr_dtor, update_block, deallocate, release, bind, get_block,
    put_block, log, ret. simpl.
  rewrite Hl. simpl. lookup_inserted Hb.
  change (size_decr 1) with 0. simpl.
  destruct (w =? 0); simpl; lookup_inserted Hb;
    rewrite ?list_insert_insert_eq, ?app_nil_r; reflexivity.
Qed.

(** The last owner of a regular block whose object is already deleted. *)
Lemma SharedPtr_dtor_last_deleted (s : state) (b i : nat) (w : Z)
    (wk : option WeakPtr) :
  live s b (mkBlock 1 w (regular_block (Some (HeapObject i)))) ->
  objects s !! i = Some (mkObject false wk) ->
  SharedPtr_dtor (mkSharedPtr (Some (HeapObject i)) (Some b)) s
  = Fault (DoubleDestroy (HeapObject i))
      (mkState
         (<[b := Constructed (mkBlock 0 w (regular_block (Some (HeapObject i))))]>
            (blocks s))
         (objects s)
         (trace s ++ [EvDestroy b])).
Proof.
  intros Hl Ho.
  assert (Hb : (b < length (blocks s))%nat) by (eapply lookup_lt_Some, Hl).
  unfold live in Hl.
  unfold SharedPtr_dtor, update_block, destroy, default_delete, destructor,
    get_object, bind, get_block, put_block, log, ret, raise_fault. simpl.
  rewrite Hl. simpl. lookup_inserted Hb. rewrite Ho. simpl.
  now rewrite ?list_insert_insert_eq.
Qed.

(** The last owner of a regular block whose object observes that block. *)
Lemma SharedPtr_dtor_last_registered (s : state) (b i : nat) (w : Z)
    (wptr : pointer) :
  live s b (mkBlock 1 w (regular_block (Some (HeapObject i)))) ->
  objects s !! i = Some (mkObject true (Some (mkWeakPtr wptr (Some b)))) ->
  1 <= w <= SIZE_MAX ->
  let a := HeapObject i in
  let objs := <[i := mkObject false (Some (mkWeakPtr wptr (Some b)))]> (objects s) in
  SharedPtr_dtor (mkSharedPtr (Some a) (Some b)) s
  = if w =? 1
    then Fault (UseAfterFree b)
           (mkState (<[b := Released]> (blocks s)) objs
                    (trace s ++ [EvDestroy b; EvDestructor a; EvDeallocate b]))
    else Ok tt
           (mkState (<[b := Constructed (mkBlock 0 (w - 1) (regular_block None))]>
                       (blocks s))
                    objs
                    (trace s ++ [EvDestroy b; EvDestructor a])).
Proof.
  intros Hl Ho Hw a objs.
  assert (Hb : (b < length (blocks s))%nat) by (eapply lookup_lt_Some, Hl).
  unfold live in Hl.
  unfold SharedPtr_dtor, update_block, destroy, default_delete, destructor,
    get_object, put_object, WeakPtr_dtor, update_block, deallocate, release,
    bind, get_block, put_block, log, ret, raise_fault. simpl.
  rewrite Hl. simpl. lookup_inserted Hb. rewrite Ho. simpl.
  lookup_inserted Hb.
  change (size_decr 1) with 0. rewrite !(size_decr_small w) by lia. simpl.
  destruct (Z.eqb_spec w 1) as [->|Hne].
  - simpl. lookup_inserted Hb.
    rewrite ?list_insert_insert_eq, <- ?app_assoc. reflexivity.
  - replace (w - 1 =? 0) with false by (symmetry; apply Z.eqb_neq; lia).
    simpl. lookup_inserted Hb.
    change (size_decr 1) with 0. rewrite !(size_decr_small w) by lia.
    replace (w - 1 =? 0) with false by (symmetry; apply Z.eqb_neq; lia).
    simpl. rewrite ?list_insert_insert_eq, <- ?app_assoc. reflexivity.
Qed.

(** ** Two handles built from one raw pointer *)

(** X8: two SharedPtr built from the same raw pointer to an object
    that is not registered as self-observing get two separate blocks, each
    with use_count 1.  When the first is destroyed the object is deleted
    and that block is released; destroying the second enters destroy on
    its own block and deletes the same object again. *)
Theorem raw_pointer_owned_twice (s : state) (i : nat) (wk : option WeakPtr) :
  objects s !! i = Some (mkObject true wk) ->
  unregistered wk ->
  let a := HeapObject i in
  let b := length (blocks s) in
  let p := mkSharedPtr (Some a) (Some b) in
  let q := mkSharedPtr (Some a) (Some (S b)) in
  exists s1 s2,
    (let* p := SharedPtr_from_raw false (Some a) in
     let* q := SharedPtr_from_raw false (Some a) in
     let* n := SharedPtr_use_count p in
     let* m := SharedPtr_use_count q in
     ret (p, q, n, m)) s = Ok (p, q, 1, 1) s1 /\
    SharedPtr_dtor p s1 = Ok tt s2 /\
    trace s2 = trace s ++ [EvDestroy b; EvDestructor a; EvDeallocate b] /\
    exists s3,
      SharedPtr_dtor q s2 = Fault (DoubleDestroy a) s3 /\
      trace s3 = trace s2 ++ [EvDestroy (S b)].
Proof.
  intros Ho Hwk a b p q.
  set (blk := mkBlock 1 0 (regular_block (Some a))).
  set (s1 := mkState ((blocks s ++ [Constructed blk]) ++ [Constructed blk])
                     (objects s) (trace s)).
  assert (Hlen : length (blocks s ++ [Constructed blk]) = S b)
    by (rewrite length_app; simpl; unfold b; lia).
  assert (Hlp : live s1 b blk).
  { unfold live, s1. simpl. rewrite lookup_app_l by (rewrite Hlen; lia).
    apply lookup_at_length. }
  assert (Hlq : live s1 (S b) blk).
  { unfold live, s1. simpl. rewrite <- Hlen. apply lookup_at_length. }
  exists s1. eexists. split.
  { unfold bind. rewrite SharedPtr_from_raw_plain. fold b blk.
    rewrite SharedPtr_from_raw_plain. simpl. rewrite Hlen. fold s1.
    fold p q. unfold p at 1. rewrite (SharedPtr_use_count_live _ _ _ _ Hlp).
    unfold q at 1. now rewrite (SharedPtr_use_count_live _ _ _ _ Hlq). }
  split.
  { unfold p. apply (SharedPtr_dtor_last s1 (Owned i wk) b 0 Hlp Ho Hwk). }
  split; [reflexivity|].
  eexists. split.
  - unfold q. apply (SharedPtr_dtor_last_deleted _ (S b) i 0 wk).
    + unfold live. simpl. rewrite list_lookup_insert_ne by lia. exact Hlq.
    + simpl. apply list_lookup_insert_eq. eapply lookup_lt_Some, Ho.
  - reflexivity.
Qed.

(** X9: two SharedPtr built from the same raw pointer to a new
    self-observing object are the same handle: one block is allocated,
    use_count is 2, and after one of them is destroyed the other has
    use_count 1 and the object is still alive (nothing in the trace). *)
Theorem self_observing_object_owned_twice (s : state) :
  let a := HeapObject (length (objects s)) in
  let b := length (blocks s) in
  let h := mkSharedPtr (Some a) (Some b) in
  let s' := mkState
              (blocks s ++ [Constructed (mkBlock 1 1 (regular_block (Some a)))])
              (objects s ++ [mkObject true (Some (mkWeakPtr (Some a) (Some b)))])
              (trace s) in
  (new_object (constructed_object true) ;;
   let* p := SharedPtr_from_raw true (Some a) in
   let* q := SharedPtr_from_raw true (Some a) in
   let* n := SharedPtr_use_count p in
   SharedPtr_dtor q ;;
   let* m := SharedPtr_use_count p in
   ret (p, q, n, m)) s = Ok (h, h, 2, 1) s'.
Proof.
  intros a b h s'.
  set (s0 := mkState (blocks s) (objects s ++ [constructed_object true]) (trace s)).
  assert (Ho0 : objects s0 !! length (objects s)
                = Some (mkObject true (Some (mkWeakPtr None None))))
    by apply lookup_at_length.
  destruct (from_raw_registers s0 _ None Ho0) as (_ & _ & Hraw).
  change (objects s0) with (objects s ++ [constructed_object true]) in Hraw.
  change (blocks s0) with (blocks s) in Hraw.
  change (trace s0) with (trace s) in Hraw.
  rewrite insert_at_length in Hraw. fold a b h s' in Hraw.
  assert (Ho' : objects s' !! length (objects s)
                = Some (mkObject true (Some (mkWeakPtr (Some a) (Some b)))))
    by apply lookup_at_length.
  assert (Hl' : live s' b (mkBlock 1 1 (regular_block (Some a))))
    by apply lookup_at_length.
  destruct (from_raw_aliases s' _ (Some a) b _ Ho' Hl') as (_ & _ & Hraw2).
  { simpl. rewrite SIZE_MAX_value. lia. }
  fold a h in Hraw2.
  unfold bind. change (new_object (constructed_object true) s) with (Ok (Some a) s0).
  cbv iota. rewrite Hraw, Hraw2.
  set (blk2 := add_shared 1 (mkBlock 1 1 (regular_block (Some a)))).
  assert (Hl2 : live (with_block b blk2 s') b blk2)
    by exact (live_with_block _ _ _ _ Hl').
  unfold h at 1. rewrite (SharedPtr_use_count_live _ _ _ _ Hl2).
  unfold h at 1. rewrite (SharedPtr_dtor_not_last _ _ _ _ Hl2).
  2:{ vm_compute. discriminate. }
  rewrite with_block_with_block.
  change (decr_shared blk2) with (mkBlock 1 1 (regular_block (Some a))).
  rewrite (with_block_same _ _ _ Hl').
  unfold h at 1. now rewrite (SharedPtr_use_count_live _ _ _ _ Hl').
Qed.

(** ** Self-observing objects at the end of their life *)

(** X10: the last owner of a registered self-observing object, while
    another WeakPtr observes the block: the destructor runs destroy and
    the object's destructor, the object's own WeakPtr gives up one weak
    count, and the block stays (expired, strong count 0).  When the one
    outside observer is destroyed afterwards, the block is deallocated. *)
Theorem self_observing_last_owner_with_observer (s : state) (b i : nat) (w : Z)
    (wptr optr : pointer) :
  live s b (mkBlock 1 w (regular_block (Some (HeapObject i)))) ->
  objects s !! i = Some (mkObject true (Some (mkWeakPtr wptr (Some b)))) ->
  2 <= w <= SIZE_MAX ->
  let a := HeapObject i in
  let objs := <[i := mkObject false (Some (mkWeakPtr wptr (Some b)))]> (objects s) in
  let s1 := mkState (<[b := Constructed (mkBlock 0 (w - 1) (regular_block None))]>
                       (blocks s))
                    objs (trace s ++ [EvDestroy b; EvDestructor a]) in
  SharedPtr_dtor (mkSharedPtr (Some a) (Some b)) s = Ok tt s1 /\
  WeakPtr_expired (mkWeakPtr optr (Some b)) s1 = Ok true s1 /\
  (w = 2 ->
   WeakPtr_dtor (mkWeakPtr optr (Some b)) s1
   = Ok tt (mkState (<[b := Released]> (blocks s)) objs
                    (trace s ++ [EvDestroy b; EvDestructor a; EvDeallocate b]))).
Proof.
  intros Hl Ho Hw a objs s1. subst a.
  assert (Hb : (b < length (blocks s))%nat) by (eapply lookup_lt_Some, Hl).
  assert (Hl1 : live s1 b (mkBlock 0 (w - 1) (regular_block None)))
    by (apply list_lookup_insert_eq; exact Hb).
  split.
  { rewrite (SharedPtr_dtor_last_registered s b i w wptr Hl Ho) by lia.
    replace (w =? 1) with false by (symmetry; apply Z.eqb_neq; lia).
    reflexivity. }
  split.
  { unfold WeakPtr_expired, bind.
    now rewrite (WeakPtr_use_count_live _ _ _ _ Hl1). }
  intros ->. rewrite (WeakPtr_dtor_live _ _ _ _ Hl1). simpl.
  unfold s1. simpl. now rewrite list_insert_insert_eq, <- app_assoc.
Qed.

(** X11: from any state, a SharedPtr built from a raw pointer to a new
    self-observing object and destroyed as the only handle: the block is
    deallocated from inside destroy (by the object's own WeakPtr), and
    the next access to the block finds it released. *)
Theorem self_observing_sole_owner_faults (s : state) :
  let a := HeapObject (length (objects s)) in
  let b := length (blocks s) in
  (new_object (constructed_object true) ;;
   let* p := SharedPtr_from_raw true (Some a) in
   SharedPtr_dtor p) s
  = Fault (UseAfterFree b)
      (mkState (blocks s ++ [Released])
               (objects s ++ [mkObject false (Some (mkWeakPtr (Some a) (Some b)))])
               (trace s ++ [EvDestroy b; EvDestructor a; EvDeallocate b])).
Proof.
  intros a b.
  set (s0 := mkState (blocks s) (objects s ++ [constructed_object true]) (trace s)).
  assert (Ho0 : objects s0 !! length (objects s)
                = Some (mkObject true (Some (mkWeakPtr None None))))
    by apply lookup_at_length.
  destruct (from_raw_registers s0 _ None Ho0) as (_ & _ & Hraw).
  change (objects s0) with (objects s ++ [constructed_object true]) in Hraw.
  change (blocks s0) with (blocks s) in Hraw.
  change (trace s0) with (trace s) in Hraw.
  rewrite insert_at_length in Hraw. fold a b in Hraw.
  unfold bind. change (new_object (constructed_object true) s) with (Ok (Some a) s0).
  cbv iota. rewrite Hraw.
  rewrite (SharedPtr_dtor_last_registered _ b (length (objects s)) 1 (Some a)).
  - simpl. unfold b. now rewrite !insert_at_length.
  - apply lookup_at_length.
  - apply lookup_at_length.
  - rewrite SIZE_MAX_value. lia.
Qed.

(** ** Null pointers *)

(** X12: a SharedPtr built from a null raw pointer owns a block of its
    own: use_count is 1 and one allocation is outstanding.  Its
    destructor calls no destroy and deallocates the block. *)
Theorem null_pointer_is_owned (s : state) :
  let b := length (blocks s) in
  let p := mkSharedPtr None (Some b) in
  let s1 := mkState (blocks s ++ [Constructed (mkBlock 1 0 (regular_block None))])
                    (objects s) (trace s) in
  SharedPtr_from_raw false None s = Ok p s1 /\
  SharedPtr_use_count p s1 = Ok 1 s1 /\
  allocated s1 = S (allocated s) /\
  SharedPtr_dtor p s1
  = Ok tt (mkState (blocks s ++ [Released]) (objects s)
                   (trace s ++ [EvDeallocate b])).
Proof.
  intros b p s1.
  assert (Hl : live s1 b (mkBlock 1 0 (regular_block None)))
    by apply lookup_at_length.
  split; [apply SharedPtr_from_raw_plain|].
  split; [unfold p; now rewrite (SharedPtr_use_count_live _ _ _ _ Hl)|].
  split.
  { unfold allocated, s1. simpl. rewrite allocated_app. simpl. lia. }
  unfold p. rewrite (SharedPtr_dtor_last_null _ _ _ _ Hl). simpl.
  unfold b. now rewrite insert_at_length.
Qed.

(** X13: a handle whose pointer a failed conversion nulled shares the
    block, but whether the object is destroyed depends on which handle
    goes last.  If the hollow handle is the last owner, destroy is
    skipped and only deallocate runs, leaving the object alive; if the
    original handle goes last, destroy, the destructor and deallocate
    run. *)
Theorem hollow_handle_as_last_owner (compatible : address -> bool) (s : state)
    (m : managed) (b : nat) :
  live s b (mkBlock 1 0 (managed_variant m true)) ->
  managed_object m true s ->
  unregistered (managed_weak m) ->
  compatible (managed_address m b) = false ->
  let a := managed_address m b in
  let p := mkSharedPtr (Some a) (Some b) in
  let q := mkSharedPtr None (Some b) in
  (let* h := SharedPtr_copy_from compatible p in
   SharedPtr_dtor p ;; SharedPtr_dtor h ;; ret h) s
  = Ok q (mkState (<[b := Released]> (blocks s)) (objects s)
                  (trace s ++ [EvDeallocate b])) /\
  (let* h := SharedPtr_copy_from compatible p in
   SharedPtr_dtor h ;; SharedPtr_dtor p ;; ret h) s
  = Ok q (mkState (<[b := Released]> (blocks s))
                  (lifecycle_objects m (mkHolders 0 0) (objects s))
                  (trace s ++ [EvDestroy b; EvDestructor a; EvDeallocate b])).
Proof.
  intros Hl Hobj Hwk Hdyn a p q. subst a.
  set (blk := mkBlock 1 0 (managed_variant m true)) in *.
  set (blk2 := mkBlock 2 0 (managed_variant m true)).
  assert (Hinc : incr_shared blk = blk2) by reflexivity.
  assert (Hdec : decr_shared blk2 = blk) by reflexivity.
  assert (Hl2 : live (with_block b blk2 s) b blk2)
    by exact (live_with_block _ _ _ _ Hl).
  assert (Hcopy : SharedPtr_copy_from compatible p s = Ok q (with_block b blk2 s)).
  { unfold p. rewrite (SharedPtr_copy_from_live _ _ _ _ _ Hl), Hinc.
    simpl. now rewrite Hdyn. }
  assert (Hback : with_block b (decr_shared blk2) (with_block b blk2 s) = s).
  { rewrite with_block_with_block, Hdec. exact (with_block_same _ _ _ Hl). }
  split.
  - unfold bind. rewrite Hcopy. unfold p at 1.
    rewrite (SharedPtr_dtor_not_last _ _ _ _ Hl2) by (vm_compute; discriminate).
    rewrite Hback. unfold q at 1.
    now rewrite (SharedPtr_dtor_last_null _ _ _ _ Hl).
  - unfold bind. rewrite Hcopy. unfold q at 1.
    rewrite (SharedPtr_dtor_not_last _ _ _ _ Hl2) by (vm_compute; discriminate).
    rewrite Hback. unfold p at 1.
    now rewrite (SharedPtr_dtor_last s m b 0 Hl Hobj Hwk).
Qed.

(** ** [destroy] called again *)

(** X14: [destroy] on a block whose object is alive ends the object's
    life.  A second [destroy] on a regular block does nothing more (its
    pointer was nulled); on a colocated block it runs the destructor of
    the destroyed object again. *)
Theorem destroy_twice (s : state) (m : managed) (b : nat) (c w : Z) :
  live s b (mkBlock c w (managed_variant m true)) ->
  managed_object m true s ->
  unregistered (managed_weak m) ->
  let a := managed_address m b in
  let s1 := mkState (<[b := Constructed (mkBlock c w (managed_variant m false))]>
                       (blocks s))
                    (lifecycle_objects m (mkHolders 0 0) (objects s))
                    (trace s ++ [EvDestroy b; EvDestructor a]) in
  let s2 := mkState (blocks s1) (objects s1) (trace s1 ++ [EvDestroy b]) in
  destroy b s = Ok tt s1 /\
  destroy b s1 = match m with
                 | Owned _ _ => Ok tt s2
                 | Colocated _ => Fault (DoubleDestroy a) s2
                 end.
Proof.
  intros Hl Hobj Hwk a s1 s2. subst a.
  assert (Hb : (b < length (blocks s))%nat) by (eapply lookup_lt_Some, Hl).
  unfold live in Hl.
  destruct m as [wk|i wk]; simpl in *.
  - split.
    + unfold destroy, destructor, get_object, put_object, bind, get_block,
        put_block, log. simpl. rewrite Hl. simpl. rewrite Hl. simpl.
      rewrite Hl. simpl. rewrite (unregistered_dtor wk Hwk). unfold ret.
      now rewrite <- app_assoc.
    + unfold destroy, destructor, get_object, bind, get_block, log, raise_fault.
      simpl. lookup_inserted Hb. reflexivity.
  - split.
    + unfold destroy, default_delete, destructor, get_object, put_object, bind,
        get_block, put_block, log. simpl. rewrite Hl. simpl. rewrite Hobj. simpl.
      rewrite (unregistered_dtor wk Hwk). unfold ret. simpl. rewrite Hl.
      now rewrite <- app_assoc.
    + unfold destroy, bind, get_block, log, ret. simpl. lookup_inserted Hb.
      reflexivity.
Qed.

(** ** [shared_from_this] before any registration *)

(** X15: [shared_from_this] on an object that no constructor has
    registered returns an empty SharedPtr (use_count 0) and leaves the
    state alone.  This is the case for an object created by makeShared,
    which never calls set_pointer, even while its owner has use_count
    1. *)
Theorem shared_from_this_unregistered (s : state) :
  let b := length (blocks s) in
  let p := mkSharedPtr (Some (EmbeddedObject b)) (Some b) in
  let s1 := mkState (blocks s ++ [Constructed
                       (mkBlock 1 0 (shared_block (constructed_object true)))])
                    (objects s) (trace s) in
  (let* p := makeShared true false in
   let* q := shared_from_this (EmbeddedObject b) in
   let* n := SharedPtr_use_count p in
   let* k := SharedPtr_use_count q in
   ret (p, q, n, k)) s = Ok (p, SharedPtr_default, 1, 0) s1 /\
  (forall i wptr,
     objects s !! i = Some (mkObject true (Some (mkWeakPtr wptr None))) ->
     shared_from_this (HeapObject i) s = Ok (mkSharedPtr wptr None) s).
Proof.
  intros b p s1. split.
  - unfold bind. rewrite makeShared_ok. fold b s1.
    assert (Hl : live s1 b (mkBlock 1 0 (shared_block (constructed_object true))))
      by apply lookup_at_length.
    assert (Hs : shared_from_this (EmbeddedObject b) s1 = Ok SharedPtr_default s1).
    { unfold shared_from_this, weak_this, get_object, bind.
      now rewrite (get_block_live _ _ _ Hl). }
    rewrite Hs. fold p. unfold p at 1.
    now rewrite (SharedPtr_use_count_live _ _ _ _ Hl).
  - intros i wptr Ho. unfold shared_from_this, bind.
    now rewrite (weak_this_heap _ _ _ Ho).
Qed.

(** ** Swapping handles of different types *)

Lemma incr_then_decr_shared (blk : base_block) :
  1 <= _shared_counter blk < SIZE_MAX ->
  decr_shared (incr_shared blk) = blk /\
  size_decr (_shared_counter (incr_shared blk)) <> 0.
Proof.
  intros H. destruct blk as [c w v]. unfold decr_shared, incr_shared. simpl in *.
  rewrite size_decr_incr by (unfold in_size_t; lia). split; [reflexivity | lia].
Qed.

(** A converting copy that is destroyed later, with other steps on other
    blocks or the same kind of steps in between, leaves the count as it was;
    here for the two shapes the swap needs. *)
Lemma SharedPtr_swap_from_pair (to_T to_U : address -> bool) (x y : SharedPtr)
    (s : state) :
  SharedPtr_swap_from to_T to_U lens_fst lens_snd (x, y) s
  = (let* copy := SharedPtr_copy_from to_T y in
     let* tmp := SharedPtr_copy_from to_U x in
     SharedPtr_dtor y ;;
     SharedPtr_dtor x ;;
     ret (copy, tmp)) s.
Proof.
  unfold SharedPtr_swap_from, SharedPtr_assign_from, SharedPtr_swap_out, bind.
  simpl.
  destruct (SharedPtr_copy_from to_T y s) as [[cp cc] s1| |]; try reflexivity.
  destruct (SharedPtr_copy_from to_U x s1) as [[tp tc] s2| |]; try reflexivity.
  destruct x as [xp xc], y as [yp yc]. simpl.
  destruct (SharedPtr_dtor _ s2) as [[] s3| |]; reflexivity.
Qed.

(** X16: the converting [swap] between handles of two types exchanges
    the blocks and casts each pointer to the other handle's type (null
    when the cast fails).  The copies it makes on the way are destroyed
    again: all counts, objects and the trace end as they were, whether
    the handles refer to two blocks or to one. *)
Theorem converting_swap_exchanges_blocks (to_T to_U : address -> bool)
    (s : state) (px py : pointer) (bx bz : nat) (blkx blky : base_block) :
  live s bx blkx -> 1 <= _shared_counter blkx < SIZE_MAX - 1 ->
  live s bz blky -> 1 <= _shared_counter blky < SIZE_MAX - 1 ->
  let x := mkSharedPtr px (Some bx) in
  let y := mkSharedPtr py (Some bz) in
  SharedPtr_swap_from to_T to_U lens_fst lens_snd (x, y) s
  = Ok (mkSharedPtr (dynamic_cast to_T py) (Some bz),
        mkSharedPtr (dynamic_cast to_U px) (Some bx)) s.
Proof.
  intros Hlx Hcx Hly Hcy x y.
  rewrite SharedPtr_swap_from_pair. unfold bind, x, y.
  rewrite (SharedPtr_copy_from_live _ _ _ _ _ Hly).
  destruct (Nat.eq_dec bx bz) as [->|Hne].
  - (* both handles refer to the same block *)
    assert (blkx = blky) by (unfold live in *; congruence). subst blkx.
    set (b1 := incr_shared blky).
    assert (Hl1 : live (with_block bz b1 s) bz b1)
      by exact (live_with_block _ _ _ _ Hly).
    rewrite (SharedPtr_copy_from_live _ _ _ _ _ Hl1).
    rewrite with_block_with_block.
    set (b2 := incr_shared b1).
    assert (Hl2 : live (with_block bz b2 s) bz b2)
      by exact (live_with_block _ _ _ _ Hly).
    assert (Hc1 : _shared_counter b1 = _shared_counter blky + 1)
      by (apply size_incr_small; lia).
    destruct (incr_then_decr_shared b1) as [Hd2 Hn2]; [lia|]. fold b2 in Hd2, Hn2.
    destruct (incr_then_decr_shared blky) as [Hd1 Hn1]; [lia|]. fold b1 in Hd1, Hn1.
    rewrite (SharedPtr_dtor_not_last _ _ _ _ Hl2 Hn2).
    rewrite with_block_with_block, Hd2.
    rewrite (SharedPtr_dtor_not_last _ _ _ _ Hl1 Hn1).
    rewrite with_block_with_block, Hd1.
    now rewrite (with_block_same _ _ _ Hly).
  - set (by1 := incr_shared blky). set (bx1 := incr_shared blkx).
    destruct (incr_then_decr_shared blky) as [Hdy Hny]; [lia|].
    destruct (incr_then_decr_shared blkx) as [Hdx Hnx]; [lia|].
    fold by1 in Hdy, Hny. fold bx1 in Hdx, Hnx.
    set (s1 := with_block bz by1 s).
    assert (Hlx1 : live s1 bx blkx)
      by (apply live_with_block_ne; [congruence | exact Hlx]).
    rewrite (SharedPtr_copy_from_live _ _ _ _ _ Hlx1). fold bx1.
    set (s2 := with_block bx bx1 s1).
    assert (Hly2 : live s2 bz by1).
    { apply live_with_block_ne; [exact Hne|].
      exact (live_with_block _ _ _ _ Hly). }
    rewrite (SharedPtr_dtor_not_last _ _ _ _ Hly2 Hny), Hdy.
    set (s3 := with_block bz blky s2).
    assert (Hlx3 : live s3 bx bx1).
    { apply live_with_block_ne; [congruence|].
      exact (live_with_block _ _ _ _ Hlx1). }
    rewrite (SharedPtr_dtor_not_last _ _ _ _ Hlx3 Hnx), Hdx.
    unfold s3, s2, s1.
    rewrite (with_block_commute _ bz bx) by congruence.
    rewrite !with_block_with_block.
    rewrite (with_block_same _ _ _ Hly).
    now rewrite (with_block_same _ _ _ Hlx).
Qed.

(** ** [reset] with a new pointer *)

(** X17: [reset(ptr)] for a type without the self-observing base
    builds the new ownership first (a fresh block with counts 1 and 0 for
    [ptr]) and then releases the old one; on an empty handle it is the
    raw-pointer constructor. *)
Theorem reset_with_pointer (s : state) (ptr optr : pointer) (b : nat)
    (blk : base_block) :
  live s b blk -> 2 <= _shared_counter blk <= SIZE_MAX ->
  let n := length (blocks s) in
  let p := mkSharedPtr optr (Some b) in
  let fresh := mkSharedPtr ptr (Some n) in
  let new_block := Constructed (mkBlock 1 0 (regular_block ptr)) in
  let s' := mkState
              (<[b := Constructed (mkBlock (_shared_counter blk - 1)
                                           (_weak_counter blk) (variant blk))]>
                 (blocks s) ++ [new_block])
              (objects s) (trace s) in
  SharedPtr_reset_ptr false lens_id ptr p s = Ok fresh s' /\
  SharedPtr_use_count fresh s' = Ok 1 s' /\
  SharedPtr_use_count p s' = Ok (_shared_counter blk - 1) s' /\
  SharedPtr_reset_ptr false lens_id ptr (mkSharedPtr optr None) s
  = SharedPtr_from_raw false ptr s.
Proof.
  intros Hl Hc n p fresh new_block s'.
  assert (Hb : (b < length (blocks s))%nat) by (eapply lookup_lt_Some, Hl).
  set (s1 := mkState (blocks s ++ [new_block]) (objects s) (trace s)).
  assert (Hl1 : live s1 b blk).
  { unfold live, s1. simpl. rewrite lookup_app_l by exact Hb. exact Hl. }
  assert (Hs' : s' = with_block b (decr_shared blk) s1).
  { unfold s', with_block, s1, decr_shared. simpl.
    rewrite size_decr_small by lia. now rewrite insert_app_l by exact Hb. }
  split.
  { unfold SharedPtr_reset_ptr, bind. rewrite SharedPtr_from_raw_plain.
    fold n new_block s1. simpl. unfold bind.
    rewrite (SharedPtr_dtor_not_last _ _ _ _ Hl1).
    - now rewrite Hs'.
    - apply size_decr_nonzero. lia. }
  split.
  { unfold fresh. rewrite (SharedPtr_use_count_live _ _ _
      (mkBlock 1 0 (regular_block ptr))); [reflexivity|].
    unfold live, s'. simpl. unfold n.
    rewrite <- (length_insert (blocks s) b
      (Constructed (mkBlock (_shared_counter blk - 1) (_weak_counter blk) (variant blk)))).
    apply lookup_at_length. }
  split.
  { unfold p. rewrite (SharedPtr_use_count_live _ _ _
      (mkBlock (_shared_counter blk - 1) (_weak_counter blk) (variant blk)));
      [reflexivity|].
    unfold live, s'. simpl. rewrite lookup_app_l by (rewrite length_insert; exact Hb).
    now apply list_lookup_insert_eq. }
  unfold SharedPtr_reset_ptr, bind. rewrite SharedPtr_from_raw_plain. reflexivity.
Qed.

(** ** Assignment between observers *)

Lemma WeakPtr_assign_pair (w v : WeakPtr) (s : state) :
  WeakPtr_assign lens_fst lens_snd (w, v) s
  = (let* c := WeakPtr_copy v in WeakPtr_dtor w ;; ret (c, v)) s.
Proof.
  unfold WeakPtr_assign, bind. simpl.
  destruct (WeakPtr_copy v s) as [[cp cc] s1| |]; reflexivity.
Qed.

(** X18: copy assignment [w = v] between two observers.  [w] ends up
    with [v]'s pointer and block and the weak count of [v]'s block goes up
    by one; what [w] observed before loses one weak count (none on
    balance when it was the same block).  use_count is not affected. *)
Theorem observer_assign_retargets (s : state) (pv : pointer) (bz : nat)
    (blkv : base_block) :
  live s bz blkv -> 1 <= _weak_counter blkv < SIZE_MAX ->
  let v := mkWeakPtr pv (Some bz) in
  let sv := with_block bz (mkBlock (_shared_counter blkv)
                                   (_weak_counter blkv + 1) (variant blkv)) s in
  (forall pw,
     WeakPtr_assign lens_fst lens_snd (mkWeakPtr pw None, v) s = Ok (v, v) sv) /\
  (forall pw,
     WeakPtr_assign lens_fst lens_snd (mkWeakPtr pw (Some bz), v) s = Ok (v, v) s) /\
  (forall pw bx blkw,
     bx <> bz -> live s bx blkw -> 2 <= _weak_counter blkw <= SIZE_MAX ->
     let s' := with_block bx (mkBlock (_shared_counter blkw)
                                      (_weak_counter blkw - 1) (variant blkw)) sv in
     WeakPtr_assign lens_fst lens_snd (mkWeakPtr pw (Some bx), v) s = Ok (v, v) s' /\
     WeakPtr_use_count v s' = Ok (_shared_counter blkv) s' /\
     trace s' = trace s).
Proof.
  intros Hlv Hcv v sv.
  set (blkv' := mkBlock (_shared_counter blkv) (_weak_counter blkv + 1) (variant blkv)).
  assert (Hv1 : incr_weak blkv = blkv').
  { unfold incr_weak, blkv'. now rewrite size_incr_small by lia. }
  assert (Hcopy : WeakPtr_copy v s = Ok v sv).
  { unfold v. now rewrite (WeakPtr_copy_live _ _ _ _ Hlv), Hv1. }
  assert (Hlsv : live sv bz blkv') by exact (live_with_block _ _ _ _ Hlv).
  split; [|split].
  - intros pw. rewrite WeakPtr_assign_pair. unfold bind. now rewrite Hcopy.
  - intros pw. rewrite WeakPtr_assign_pair. unfold bind. rewrite Hcopy.
    rewrite (WeakPtr_dtor_live _ _ _ _ Hlsv).
    replace (size_decr (_weak_counter blkv') =? 0) with false.
    + rewrite andb_false_r. unfold sv. rewrite with_block_with_block.
      replace (decr_weak blkv') with blkv.
      * now rewrite (with_block_same _ _ _ Hlv).
      * destruct blkv as [c w vr]. unfold decr_weak, blkv'. simpl in *.
        rewrite size_decr_small by lia. f_equal. lia.
    + symmetry. apply Z.eqb_neq. unfold blkv'. simpl.
      rewrite size_decr_small by lia. lia.
  - intros pw bx blkw Hne Hlw Hcw s'.
    assert (Hlw1 : live sv bx blkw)
      by (apply live_with_block_ne; [congruence | exact Hlw]).
    split.
    { rewrite WeakPtr_assign_pair. unfold bind. rewrite Hcopy.
      rewrite (WeakPtr_dtor_live _ _ _ _ Hlw1).
      replace (size_decr (_weak_counter blkw) =? 0) with false.
      - rewrite andb_false_r. unfold s', decr_weak.
        now rewrite size_decr_small by lia.
      - symmetry. apply Z.eqb_neq. rewrite size_decr_small by lia. lia. }
    split; [|reflexivity].
    unfold v. rewrite (WeakPtr_use_count_live _ _ _ blkv'); [reflexivity|].
    apply live_with_block_ne; [exact Hne | exact Hlsv].
Qed.

(** ** The handles of a block, seen by the client *)

(** X19: the handles of a block created by makeShared, under any
    program that copies owners, makes and copies observers, locks
    observers that are not expired and destroys handles: the program
    runs without fault; destroy and the destructor run once, when the
    last owner goes; deallocate runs once, when the last handle goes, and
    the allocation is outstanding until then; use_count, through an owner
    or an observer, is the number of owners left. *)
Theorem makeShared_handles_lifecycle (esft : bool) (s : state)
    (ops : list handle_op) :
  admissible ops (mkHolders 1 0) = true ->
  Z.of_nat (S (length ops)) <= SIZE_MAX ->
  let b := length (blocks s) in
  let a := EmbeddedObject b in
  let h := after_ops ops (mkHolders 1 0) in
  exists s1 s2,
    makeShared esft false s = Ok (mkSharedPtr (Some a) (Some b)) s1 /\
    perform_all a b ops s1 = Ok tt s2 /\
    trace s2 = trace s ++ (if Nat.eqb (owners h) 0
                           then [EvDestroy b; EvDestructor a] else [])
                       ++ (if Nat.eqb (owners h) 0 && Nat.eqb (observers h) 0
                           then [EvDeallocate b] else []) /\
    objects s2 = objects s /\
    allocated s2
    = (allocated s + if Nat.eqb (owners h) 0 && Nat.eqb (observers h) 0
                     then 0 else 1)%nat /\
    (owners h <> 0%nat ->
       SharedPtr_use_count (mkSharedPtr (Some a) (Some b)) s2
       = Ok (Z.of_nat (owners h)) s2) /\
    (observers h <> 0%nat ->
       WeakPtr_use_count (mkWeakPtr (Some a) (Some b)) s2
       = Ok (Z.of_nat (owners h)) s2 /\
       WeakPtr_expired (mkWeakPtr (Some a) (Some b)) s2
       = Ok (Nat.eqb (owners h) 0) s2).
Proof.
  intros Hadm Hmax b a h.
  set (m := Colocated (_weak_ptr (constructed_object esft))).
  set (s1 := mkState (blocks s ++ [Constructed
                (mkBlock 1 0 (shared_block (constructed_object esft)))])
                     (objects s) (trace s)).
  assert (Hl : live s1 b (mkBlock 1 0 (managed_variant m true)))
    by apply lookup_at_length.
  assert (Hwk : unregistered (managed_weak m)) by (destruct esft; reflexivity).
  destruct (block_lifecycle m b s1 ops Hl I Hwk Hadm Hmax) as (Hrun & _).
  fold h in Hrun. clearbody h.
  exists s1, (lifecycle_state m b s1 h).
  split; [apply makeShared_ok|]. split; [exact Hrun|].
  assert (Hb : (b < length (blocks s1))%nat) by (eapply lookup_lt_Some, Hl).
  assert (Hlive : (owners h + observers h <> 0)%nat ->
            live (lifecycle_state m b s1 h) b
              (mkBlock (Z.of_nat (owners h)) (Z.of_nat (observers h))
                       (managed_variant m (negb (Nat.eqb (owners h) 0))))).
  { intros Hne. destruct h as [o w].
    apply lifecycle_state_live; [exact Hb | exact Hne]. }
  split.
  { unfold lifecycle_state, lifecycle_events. simpl.
    destruct (owners h), (observers h); reflexivity. }
  split; [unfold lifecycle_state, lifecycle_objects, m; simpl;
          now destruct (owners h)|].
  split.
  { unfold allocated, lifecycle_state, lifecycle_cell. simpl. unfold b.
    rewrite insert_at_length, allocated_app.
    destruct (owners h), (observers h); simpl; lia. }
  split.
  - intros Ho. now rewrite (SharedPtr_use_count_live _ _ _ _ (Hlive ltac:(lia))).
  - intros Hw. unfold WeakPtr_expired, bind.
    rewrite (WeakPtr_use_count_live _ _ _ _ (Hlive ltac:(lia))). simpl.
    split; [reflexivity|]. f_equal. now destruct (owners h).
Qed.

(** X20: the same for the block the raw-pointer constructor creates
    for a live heap object that is not registered as self-observing; the
    object is alive exactly while an owner is left. *)
Theorem raw_pointer_handles_lifecycle (i : nat) (wk : option WeakPtr)
    (s : state) (ops : list handle_op) :
  objects s !! i = Some (mkObject true wk) ->
  unregistered wk ->
  admissible ops (mkHolders 1 0) = true ->
  Z.of_nat (S (length ops)) <= SIZE_MAX ->
  let b := length (blocks s) in
  let a := HeapObject i in
  let h := after_ops ops (mkHolders 1 0) in
  exists s1 s2,
    SharedPtr_from_raw false (Some a) s = Ok (mkSharedPtr (Some a) (Some b)) s1 /\
    perform_all a b ops s1 = Ok tt s2 /\
    trace s2 = trace s ++ (if Nat.eqb (owners h) 0
                           then [EvDestroy b; EvDestructor a] else [])
                       ++ (if Nat.eqb (owners h) 0 && Nat.eqb (observers h) 0
                           then [EvDeallocate b] else []) /\
    objects s2 !! i = Some (mkObject (negb (Nat.eqb (owners h) 0)) wk) /\
    allocated s2
    = (allocated s + if Nat.eqb (owners h) 0 && Nat.eqb (observers h) 0
                     then 0 else 1)%nat /\
    (owners h <> 0%nat ->
       SharedPtr_use_count (mkSharedPtr (Some a) (Some b)) s2
       = Ok (Z.of_nat (owners h)) s2).
Proof.
  intros Ho Hwk Hadm Hmax b a h.
  set (m := Owned i wk).
  set (s1 := mkState (blocks s ++ [Constructed (mkBlock 1 0 (regular_block (Some a)))])
                     (objects s) (trace s)).
  assert (Hl : live s1 b (mkBlock 1 0 (managed_variant m true)))
    by apply lookup_at_length.
  destruct (block_lifecycle m b s1 ops Hl Ho Hwk Hadm Hmax) as (Hrun & _).
  fold h in Hrun. clearbody h.
  exists s1, (lifecycle_state m b s1 h).
  split; [apply SharedPtr_from_raw_plain|]. split; [exact Hrun|].
  assert (Hb : (b < length (blocks s1))%nat) by (eapply lookup_lt_Some, Hl).
  split.
  { unfold lifecycle_state, lifecycle_events. simpl.
    destruct (owners h), (observers h); reflexivity. }
  split.
  { unfold lifecycle_state, lifecycle_objects. simpl.
    destruct (owners h); simpl; [|exact Ho].
    apply list_lookup_insert_eq. eapply lookup_lt_Some, Ho. }
  split.
  { unfold allocated, lifecycle_state, lifecycle_cell. simpl. unfold b.
    rewrite insert_at_length, allocated_app.
    destruct (owners h), (observers h); simpl; lia. }
  intros Hne.
  rewrite (SharedPtr_use_count_live _ _ _
    (mkBlock (Z.of_nat (owners h)) (Z.of_nat (observers h))
             (managed_variant m (negb (Nat.eqb (owners h) 0))))); [reflexivity|].
  destruct h as [o w]. apply lifecycle_state_live; [exact Hb | simpl in *; lia].
Qed.

(** ** Reaching the object *)

(** X21: dereferencing a handle reaches the object its pointer names:
    it succeeds while the object is alive, it is a null dereference on a
    handle whose pointer is null even though it shares a block, and on
    the handle that [lock] returns for an expired observer (non-null
    pointer, use_count 1) it reaches a destroyed object. *)
Theorem dereference_follows_the_object (s : state) (m : managed) (b : nat)
    (c w : Z) (alive : bool) :
  live s b (mkBlock c w (managed_variant m alive)) ->
  managed_object m alive s ->
  let a := managed_address m b in
  let p := mkSharedPtr (Some a) (Some b) in
  SharedPtr_get p = Some a /\
  SharedPtr_deref p s
  = (if alive then Ok (mkObject true (managed_weak m)) s
     else Fault (InvalidObject a) s) /\
  SharedPtr_deref (mkSharedPtr None (Some b)) s = Fault NullDereference s /\
  (alive = false -> c = 0 ->
   exists s',
     WeakPtr_lock (mkWeakPtr (Some a) (Some b)) s = Ok p s' /\
     SharedPtr_use_count p s' = Ok 1 s' /\
     SharedPtr_deref p s' = Fault (InvalidObject a) s').
Proof.
  intros Hl Hobj a p. subst a.
  assert (Hderef : forall s0 c0,
    live s0 b (mkBlock c0 w (managed_variant m alive)) ->
    managed_object m alive s0 ->
    SharedPtr_deref p s0
    = (if alive then Ok (mkObject true (managed_weak m)) s0
       else Fault (InvalidObject (managed_address m b)) s0)).
  { intros s0 c0 Hl0 Hobj0. unfold SharedPtr_deref, p. simpl.
    destruct m as [wk|i wk]; simpl in *.
    - unfold get_object, bind. rewrite (get_block_live _ _ _ Hl0). simpl.
      now destruct alive.
    - unfold get_object, bind. rewrite Hobj0. simpl. now destruct alive. }
  split; [reflexivity|]. split; [exact (Hderef s c Hl Hobj)|].
  split; [reflexivity|].
  intros -> ->. eexists.
  split; [apply (WeakPtr_lock_live _ _ _ _ Hl)|].
  set (blk' := add_shared 1 _).
  assert (Hl' : live (with_block b blk' s) b blk')
    by exact (live_with_block _ _ _ _ Hl).
  split; [unfold p; now rewrite (SharedPtr_use_count_live _ _ _ _ Hl')|].
  apply (Hderef _ 1).
  - exact Hl'.
  - destruct m; [exact I | exact Hobj].
Qed.

(** ** Registering by hand *)

(** X22: [set_pointer] called by hand on an object created by
    makeShared registers it: the weak count becomes 1 and
    shared_from_this then returns the owner's handle with use_count 2.
    Destroying the only owner of such an object deallocates the block
    from inside destroy and then reads the released block. *)
Theorem set_pointer_on_colocated_object (s : state) :
  let b := length (blocks s) in
  let a := EmbeddedObject b in
  let p := mkSharedPtr (Some a) (Some b) in
  let registered := mkObject true (Some (mkWeakPtr (Some a) (Some b))) in
  (let* p := makeShared true false in
   set_pointer a p ;;
   let* q := shared_from_this a in
   let* n := SharedPtr_use_count q in
   ret (q, n)) s
  = Ok (p, 2)
       (mkState (blocks s ++ [Constructed (mkBlock 2 1 (shared_block registered))])
                (objects s) (trace s)) /\
  (let* p := makeShared true false in
   set_pointer a p ;;
   SharedPtr_dtor p) s
  = Fault (UseAfterFree b)
      (mkState (blocks s ++ [Released]) (objects s)
               (trace s ++ [EvDestroy b; EvDestructor a; EvDeallocate b])).
Proof.
  intros b a p registered. subst a. split.
  - unfold bind. rewrite makeShared_ok. fold b. unfold b.
    repeat (progress (
      unfold set_pointer, WeakPtr_assign_member, WeakPtr_from_shared,
        WeakPtr_copy, WeakPtr_dtor, store_weak_this, weak_this,
        shared_from_this, WeakPtr_lock, SharedPtr_private, SharedPtr_use_count,
        update_block, deallocate, bind, get_object, put_object, get_block,
        put_block, ret;
      simpl; rewrite ?lookup_at_length, ?insert_at_length)).
    reflexivity.
  - unfold bind. rewrite makeShared_ok. fold b. unfold b.
    repeat (progress (
      unfold set_pointer, WeakPtr_assign_member, WeakPtr_from_shared,
        WeakPtr_copy, SharedPtr_dtor, destroy, destructor, WeakPtr_dtor,
        store_weak_this, weak_this, update_block, deallocate, release, bind,
        get_object, put_object, get_block, put_block, log, ret, raise_fault;
      simpl; rewrite ?lookup_at_length, ?insert_at_length)).
    rewrite <- ?app_assoc. reflexivity.
Qed.

(** ** Instances of the further properties *)

Lemma two_block_state_first : live two_block_state 0 first_block.
Proof. reflexivity. Qed.

Lemma two_block_state_second : live two_block_state 1 second_block.
Proof. reflexivity. Qed.

Lemma two_fits : 2 <= 2 <= SIZE_MAX.
Proof. rewrite SIZE_MAX_value. lia. Qed.

Lemma assign_retargets_handle_witness :
  live two_block_state 1 second_block /\
  0 <= _shared_counter second_block < SIZE_MAX /\
  SharedPtr_assign lens_fst lens_snd
    (SharedPtr_default, mkSharedPtr None (Some 1%nat)) two_block_state
  = Ok (mkSharedPtr None (Some 1%nat), mkSharedPtr None (Some 1%nat))
       (with_block 1 (mkBlock 3 1 (shared_block (mkObject true None)))
                   two_block_state).
Proof.
  assert (Hc : 0 <= _shared_counter second_block < SIZE_MAX)
    by (rewrite SIZE_MAX_value; simpl; lia).
  split; [exact two_block_state_second|]. split; [exact Hc|].
  exact (proj1 (assign_retargets_handle two_block_state None 1 second_block
                  two_block_state_second Hc) None).
Defined.

Lemma move_assign_transfers_witness :
  live two_block_state 0 first_block /\
  2 <= _shared_counter first_block <= SIZE_MAX /\
  SharedPtr_move_assign lens_fst lens_snd
    (mkSharedPtr None (Some 0%nat), mkSharedPtr None (Some 1%nat)) two_block_state
  = Ok (mkSharedPtr None (Some 1%nat), SharedPtr_default)
       (with_block 0 (mkBlock 1 1 (regular_block (Some (HeapObject 0))))
                   two_block_state).
Proof.
  split; [exact two_block_state_first|]. split; [exact two_fits|].
  exact (proj1 (proj2 (proj2 (move_assign_transfers two_block_state None 0
                  first_block (mkSharedPtr None (Some 1%nat)) WeakPtr_default
                  two_block_state_first two_fits)))).
Defined.

Lemma reset_releases_witness :
  live two_block_state 0 first_block /\
  1 <= _shared_counter first_block <= SIZE_MAX /\
  SharedPtr_reset lens_id (mkSharedPtr None (Some 0%nat)) two_block_state
  = Ok SharedPtr_default
       (with_block 0 (mkBlock 1 1 (regular_block (Some (HeapObject 0))))
                   two_block_state).
Proof.
  assert (Hc : 1 <= _shared_counter first_block <= SIZE_MAX)
    by (rewrite SIZE_MAX_value; simpl; lia).
  assert (H2 : 2 <= _shared_counter first_block) by (simpl; lia).
  split; [exact two_block_state_first|]. split; [exact Hc|].
  exact (proj1 (proj1 (proj2 (reset_releases two_block_state None 0 first_block
                  two_block_state_first Hc)) H2)).
Defined.

Lemma observing_leaves_use_count_witness :
  live two_block_state 0 first_block /\
  0 <= _weak_counter first_block < SIZE_MAX - 1 /\
  WeakPtr_from_shared (mkSharedPtr None (Some 0%nat)) two_block_state
  = Ok (mkWeakPtr None (Some 0%nat))
       (with_block 0 (mkBlock 2 2 (regular_block (Some (HeapObject 0))))
                   two_block_state).
Proof.
  assert (Hw : 0 <= _weak_counter first_block < SIZE_MAX - 1)
    by (rewrite SIZE_MAX_value; simpl; lia).
  split; [exact two_block_state_first|]. split; [exact Hw|].
  exact (proj1 (observing_leaves_use_count two_block_state None 0 first_block
                  two_block_state_first Hw)).
Defined.

Lemma observer_destructor_witness :
  live two_block_state 0 first_block /\
  1 <= _weak_counter first_block <= SIZE_MAX /\
  WeakPtr_dtor (mkWeakPtr None (Some 0%nat)) two_block_state
  = Ok tt (with_block 0 (mkBlock 2 0 (regular_block (Some (HeapObject 0))))
                      two_block_state).
Proof.
  assert (Hw : 1 <= _weak_counter first_block <= SIZE_MAX)
    by (rewrite SIZE_MAX_value; simpl; lia).
  split; [exact two_block_state_first|]. split; [exact Hw|].
  exact (observer_destructor two_block_state None 0 first_block
           two_block_state_first Hw).
Defined.

Lemma lock_then_drop_restores_witness :
  live two_block_state 0 first_block /\
  1 <= _shared_counter first_block < SIZE_MAX /\
  (let* l := WeakPtr_lock (mkWeakPtr None (Some 0%nat)) in SharedPtr_dtor l)
    two_block_state = Ok tt two_block_state.
Proof.
  assert (Hc : 1 <= _shared_counter first_block < SIZE_MAX)
    by (rewrite SIZE_MAX_value; simpl; lia).
  split; [exact two_block_state_first|]. split; [exact Hc|].
  exact (proj2 (proj2 (proj2 (proj2 (lock_then_drop_restores two_block_state
                  None 0 first_block two_block_state_first Hc))))).
Defined.

Lemma plain_object_state_object :
  objects plain_object_state !! 0%nat = Some (mkObject true None).
Proof. reflexivity. Qed.

Lemma raw_pointer_owned_twice_witness :
  objects plain_object_state !! 0%nat = Some (mkObject true None) /\
  unregistered None /\
  exists s1,
    (let* p := SharedPtr_from_raw false (Some (HeapObject 0)) in
     let* q := SharedPtr_from_raw false (Some (HeapObject 0)) in
     let* n := SharedPtr_use_count p in
     let* m := SharedPtr_use_count q in
     ret (p, q, n, m)) plain_object_state
    = Ok (mkSharedPtr (Some (HeapObject 0)) (Some 0%nat),
          mkSharedPtr (Some (HeapObject 0)) (Some 1%nat), 1, 1) s1.
Proof.
  split; [exact plain_object_state_object|]. split; [exact I|].
  destruct (raw_pointer_owned_twice plain_object_state 0 None
              plain_object_state_object I) as (s1 & s2 & H & _).
  exists s1. exact H.
Defined.

Lemma observed_self_observing_state_block :
  live observed_self_observing_state 0
       (mkBlock 1 2 (regular_block (Some (HeapObject 0)))).
Proof. reflexivity. Qed.

Lemma observed_self_observing_state_object :
  objects observed_self_observing_state !! 0%nat
  = Some (mkObject true (Some (mkWeakPtr (Some (HeapObject 0)) (Some 0%nat)))).
Proof. reflexivity. Qed.

Lemma self_observing_last_owner_with_observer_witness :
  live observed_self_observing_state 0
       (mkBlock 1 2 (regular_block (Some (HeapObject 0)))) /\
  objects observed_self_observing_state !! 0%nat
  = Some (mkObject true (Some (mkWeakPtr (Some (HeapObject 0)) (Some 0%nat)))) /\
  2 <= 2 <= SIZE_MAX /\
  SharedPtr_dtor (mkSharedPtr (Some (HeapObject 0)) (Some 0%nat))
                 observed_self_observing_state
  = Ok tt (mkState
             [Constructed (mkBlock 0 1 (regular_block None))]
             [mkObject false (Some (mkWeakPtr (Some (HeapObject 0)) (Some 0%nat)))]
             [EvDestroy 0; EvDestructor (HeapObject 0)]).
Proof.
  split; [exact observed_self_observing_state_block|].
  split; [exact observed_self_observing_state_object|].
  split; [exact two_fits|].
  exact (proj1 (self_observing_last_owner_with_observer
                  observed_self_observing_state 0 0 2 (Some (HeapObject 0)) None
                  observed_self_observing_state_block
                  observed_self_observing_state_object two_fits)).
Defined.

Lemma one_owner_state_managed :
  live one_owner_state 0 (mkBlock 1 0 (managed_variant (Owned 0 None) true)).
Proof. reflexivity. Qed.

Lemma one_owner_state_object : managed_object (Owned 0 None) true one_owner_state.
Proof. reflexivity. Qed.

Lemma hollow_handle_as_last_owner_witness :
  live one_owner_state 0 (mkBlock 1 0 (managed_variant (Owned 0 None) true)) /\
  managed_object (Owned 0 None) true one_owner_state /\
  unregistered (managed_weak (Owned 0 None)) /\
  (fun _ : address => false) (managed_address (Owned 0 None) 0) = false /\
  (let* h := SharedPtr_copy_from (fun _ => false) one_owner in
   SharedPtr_dtor one_owner ;; SharedPtr_dtor h ;; ret h) one_owner_state
  = Ok (mkSharedPtr None (Some 0%nat))
       (mkState [Released] [mkObject true None] [EvDeallocate 0]).
Proof.
  split; [exact one_owner_state_managed|]. split; [exact one_owner_state_object|].
  split; [exact I|]. split; [reflexivity|].
  exact (proj1 (hollow_handle_as_last_owner (fun _ => false) one_owner_state
                  (Owned 0 None) 0 one_owner_state_managed
                  one_owner_state_object I eq_refl)).
Defined.

Lemma destroy_twice_witness :
  live one_owner_state 0 (mkBlock 1 0 (managed_variant (Owned 0 None) true)) /\
  managed_object (Owned 0 None) true one_owner_state /\
  unregistered (managed_weak (Owned 0 None)) /\
  destroy 0 one_owner_state
  = Ok tt (mkState [Constructed (mkBlock 1 0 (regular_block None))]
                   [mkObject false None]
                   [EvDestroy 0; EvDestructor (HeapObject 0)]).
Proof.
  split; [exact one_owner_state_managed|]. split; [exact one_owner_state_object|].
  split; [exact I|].
  exact (proj1 (destroy_twice one_owner_state (Owned 0 None) 0 1 0
                  one_owner_state_managed one_owner_state_object I)).
Defined.

Lemma converting_swap_exchanges_blocks_witness :
  live two_block_state 0 first_block /\
  1 <= _shared_counter first_block < SIZE_MAX - 1 /\
  live two_block_state 1 second_block /\
  1 <= _shared_counter second_block < SIZE_MAX - 1 /\
  SharedPtr_swap_from (fun _ => true) (fun _ => false) lens_fst lens_snd
    (mkSharedPtr (Some (HeapObject 0)) (Some 0%nat),
     mkSharedPtr (Some (EmbeddedObject 1)) (Some 1%nat)) two_block_state
  = Ok (mkSharedPtr (Some (EmbeddedObject 1)) (Some 1%nat),
        mkSharedPtr None (Some 0%nat)) two_block_state.
Proof.
  assert (H1 : 1 <= _shared_counter first_block < SIZE_MAX - 1)
    by (rewrite SIZE_MAX_value; simpl; lia).
  assert (H2 : 1 <= _shared_counter second_block < SIZE_MAX - 1)
    by (rewrite SIZE_MAX_value; simpl; lia).
  split; [exact two_block_state_first|]. split; [exact H1|].
  split; [exact two_block_state_second|]. split; [exact H2|].
  exact (converting_swap_exchanges_blocks (fun _ => true) (fun _ => false)
           two_block_state (Some (HeapObject 0)) (Some (EmbeddedObject 1)) 0 1
           first_block second_block two_block_state_first H1
           two_block_state_second H2).
Defined.

Lemma reset_with_pointer_witness :
  live two_block_state 0 first_block /\
  2 <= _shared_counter first_block <= SIZE_MAX /\
  SharedPtr_reset_ptr false lens_id None
    (mkSharedPtr (Some (HeapObject 0)) (Some 0%nat)) two_block_state
  = Ok (mkSharedPtr None (Some 2%nat))
       (mkState
          [Constructed (mkBlock 1 1 (regular_block (Some (HeapObject 0))));
           Constructed second_block;
           Constructed (mkBlock 1 0 (regular_block None))]
          [mkObject true None] []).
Proof.
  split; [exact two_block_state_first|]. split; [exact two_fits|].
  exact (proj1 (reset_with_pointer two_block_state None (Some (HeapObject 0)) 0
                  first_block two_block_state_first two_fits)).
Defined.

Lemma observer_assign_retargets_witness :
  live two_block_state 1 second_block /\
  1 <= _weak_counter second_block < SIZE_MAX /\
  WeakPtr_assign lens_fst lens_snd
    (WeakPtr_default, mkWeakPtr None (Some 1%nat)) two_block_state
  = Ok (mkWeakPtr None (Some 1%nat), mkWeakPtr None (Some 1%nat))
       (with_block 1 (mkBlock 2 2 (shared_block (mkObject true None)))
                   two_block_state).
Proof.
  assert (Hw : 1 <= _weak_counter second_block < SIZE_MAX)
    by (rewrite SIZE_MAX_value; simpl; lia).
  split; [exact two_block_state_second|]. split; [exact Hw|].
  exact (proj1 (observer_assign_retargets two_block_state None 1 second_block
                  two_block_state_second Hw) None).
Defined.

Lemma three_steps_fit : Z.of_nat (S (length [Observe; DropOwner; DropObserver]))
                        <= SIZE_MAX.
Proof. rewrite SIZE_MAX_value. simpl. lia. Qed.

Lemma makeShared_handles_lifecycle_witness :
  admissible [Observe; DropOwner; DropObserver] (mkHolders 1 0) = true /\
  Z.of_nat (S (length [Observe; DropOwner; DropObserver])) <= SIZE_MAX /\
  exists s1 s2,
    makeShared false false initial_state
    = Ok (mkSharedPtr (Some (EmbeddedObject 0)) (Some 0%nat)) s1 /\
    perform_all (EmbeddedObject 0) 0 [Observe; DropOwner; DropObserver] s1
    = Ok tt s2 /\
    trace s2 = [EvDestroy 0; EvDestructor (EmbeddedObject 0); EvDeallocate 0].
Proof.
  split; [reflexivity|]. split; [exact three_steps_fit|].
  destruct (makeShared_handles_lifecycle false initial_state
              [Observe; DropOwner; DropObserver] eq_refl three_steps_fit)
    as (s1 & s2 & H1 & H2 & H3 & _).
  exists s1, s2. split; [exact H1|]. split; [exact H2|]. exact H3.
Defined.

Lemma raw_pointer_handles_lifecycle_witness :
  objects plain_object_state !! 0%nat = Some (mkObject true None) /\
  unregistered None /\
  admissible [Observe; DropOwner; DropObserver] (mkHolders 1 0) = true /\
  Z.of_nat (S (length [Observe; DropOwner; DropObserver])) <= SIZE_MAX /\
  exists s1 s2,
    SharedPtr_from_raw false (Some (HeapObject 0)) plain_object_state
    = Ok (mkSharedPtr (Some (HeapObject 0)) (Some 0%nat)) s1 /\
    perform_all (HeapObject 0) 0 [Observe; DropOwner; DropObserver] s1
    = Ok tt s2 /\
    trace s2 = [EvDestroy 0; EvDestructor (HeapObject 0); EvDeallocate 0].
Proof.
  split; [exact plain_object_state_object|]. split; [exact I|].
  split; [reflexivity|]. split; [exact three_steps_fit|].
  destruct (raw_pointer_handles_lifecycle 0 None plain_object_state
              [Observe; DropOwner; DropObserver] plain_object_state_object I
              eq_refl three_steps_fit)
    as (s1 & s2 & H1 & H2 & H3 & _).
  exists s1, s2. split; [exact H1|]. split; [exact H2|]. exact H3.
Defined.

Lemma two_block_state_second_managed :
  live two_block_state 1 (mkBlock 2 1 (managed_variant (Colocated None) true)).
Proof. reflexivity. Qed.

Lemma dereference_follows_the_object_witness :
  live two_block_state 1 (mkBlock 2 1 (managed_variant (Colocated None) true)) /\
  managed_object (Colocated None) true two_block_state /\
  SharedPtr_deref (mkSharedPtr (Some (EmbeddedObject 1)) (Some 1%nat))
                  two_block_state
  = Ok (mkObject true None) two_block_state.
Proof.
  split; [exact two_block_state_second_managed|]. split; [exact I|].
  exact (proj1 (proj2 (dereference_follows_the_object two_block_state
                  (Colocated None) 1 2 1 true two_block_state_second_managed I))).
Defined.
